(** * assert-equals: the recursive comparison of [src/main.js] and its messages

    A shallow embedding of [assertEquals] (with its inner functions
    [_assertEquals], [isPrimitive], [emitTypeError], [getTypeName]) and of
    [runTest], followed by the properties of the comparison: which message
    each kind of difference produces, in which order the checks run, and how
    the path to a nested difference is assembled. *)

From Stdlib Require Import List String Ascii Bool Arith ZArith QArith Qround Qabs Lia.
From Stdlib Require Import DecimalString Permutation.
From Stdlib Require Import PrimFloat FloatOps SpecFloat FloatAxioms.
Import ListNotations.

Local Open Scope list_scope.
Local Open Scope string_scope.

(** ** The language's values *)

Module JS.

(** A JavaScript number is an IEEE 754 binary64 value. *)
Definition Number := float.

(** An object lives at an address; [===] on two objects compares addresses. *)
Definition address := positive.

(** The values the comparison is written for.  An array carries its elements
    in index order; a plain object carries its own enumerable properties in
    the order [for (i in o)] visits them.  Both carry the address of the
    object they denote: the structure is the finite unfolding of an acyclic
    heap. *)
#[warnings="-register-all"]
Inductive Value : Type :=
| VNull
| VString (s : string)
| VNumber (n : Number)
| VBoolean (b : bool)
| VArray (at_ : address) (elements : list Value)
| VObject (at_ : address) (properties : list (string * Value)).

Arguments VNumber n%_float.
Arguments VArray at_%_positive elements%_list.
Arguments VObject at_%_positive properties%_list.

(** *** Rendering of numbers: [Number::toString] in radix 10 *)

(** An array index or length in decimal. *)
Definition string_of_nat (n : nat) : string :=
  NilZero.string_of_uint (Nat.to_uint n).

Definition string_of_pos (p : positive) : string :=
  NilZero.string_of_uint (Pos.to_uint p).

Definition pow10 (p : Z) : Q := Qpower (10 # 1) p.
Definition pow2 (p : Z) : Q := Qpower (2 # 1) p.

(** The reals that round to the double [m * 2^e]: an interval around it,
    closed exactly when [m] is even (ties go to the even mantissa). *)
Definition rounds_to (m : positive) (e : Z) (v : Q) : bool :=
  let x := (Zpos m # 1) * pow2 e in
  let up := pow2 (e - 1) in
  let down := if (Pos.eqb m 4503599627370496 && Z.ltb (-1074) e)%bool
              then pow2 (e - 2) else pow2 (e - 1) in
  if Z.even (Zpos m)
  then (Qle_bool (x - down) v && Qle_bool v (x + up))%bool
  else (negb (Qle_bool v (x - down)) && negb (Qle_bool (x + up) v))%bool.

(** The least [n] with [x < 10^n], searched upwards from [from]. *)
Fixpoint magnitude_from (fuel : nat) (from : Z) (x : Q) : Z :=
  match fuel with
  | O => from
  | S fuel' =>
      if negb (Qle_bool (pow10 from) x) then from
      else magnitude_from fuel' (from + 1)%Z x
  end.

(** The search starts below the decimal magnitude of [2^(e + log2 m)], a
    lower bound of [m * 2^e]. *)
Definition magnitude (m : positive) (e : Z) : Z :=
  let from := ((e + Z.log2 (Zpos m)) * 30103 / 100000 - 2)%Z in
  magnitude_from 8 from ((Zpos m # 1) * pow2 e).

(** A decimal candidate: the digits [s], their number [k] and the position
    [n] of the decimal point, standing for [s * 10^(n-k)]. *)
Definition decimal : Type := Z * Z * Z.

Definition decimal_value (d : decimal) : Q :=
  let '(n, k, s) := d in inject_Z s * pow10 (n - k).

Definition digits_of (d : decimal) : Z := snd d.

(** Of two candidates the one nearer to [x] wins, the one with even digits
    on a tie. *)
Definition nearer (x : Q) (d1 d2 : decimal) : decimal :=
  let far1 := Qabs (decimal_value d1 - x) in
  let far2 := Qabs (decimal_value d2 - x) in
  if Qle_bool far1 far2
  then if Qle_bool far2 far1
       then (if Z.even (digits_of d1) then d1 else d2)
       else d1
  else d2.

(** The candidates with [k] digits that round to [m * 2^e], whose decimal
    magnitude is [n]: the two [k]-digit neighbours of the value and, with
    one digit, the power of ten just above it. *)
Definition candidates (m : positive) (e n k : Z) : list decimal :=
  let x := (Zpos m # 1) * pow2 e in
  let p := (n - k)%Z in
  let ok s := ((10 ^ (k - 1) <=? s)%Z && (s <? 10 ^ k)%Z
               && rounds_to m e (inject_Z s * pow10 p))%bool in
  let below := Qfloor (x / pow10 p) in
  let above := Qceiling (x / pow10 p) in
  ((if ok below then [(n, k, below)] else [])
   ++ (if (ok above && negb (above =? below)%Z)%bool
       then [(n, k, above)] else [])
   ++ (if ((k =? 1)%Z && rounds_to m e (pow10 n))%bool
       then [((n + 1)%Z, 1%Z, 1%Z)] else []))%list.

(** The candidate of the least [k] that has any, the nearest one of them:
    17 digits always suffice for a double. *)
Fixpoint shortest (fuel : nat) (k : Z) (m : positive) (e n : Z) : decimal :=
  match fuel with
  | O => (n, k, Qfloor ((Zpos m # 1) * pow2 e / pow10 (n - k)))
  | S fuel' =>
      match candidates m e n k with
      | [] => shortest fuel' (k + 1)%Z m e n
      | d :: ds => fold_left (nearer ((Zpos m # 1) * pow2 e)) ds d
      end
  end.

Fixpoint zeros (n : nat) : string :=
  match n with O => "" | S n' => "0" ++ zeros n' end.

(** The digits laid out: plainly when the decimal point falls within
    [-5 .. 21], with an exponent otherwise. *)
Definition layout (n k s : Z) : string :=
  let digits := string_of_pos (Z.to_pos s) in
  if ((-5 <=? n)%Z && (n <=? 21)%Z)%bool then
    if (k <=? n)%Z then digits ++ zeros (Z.to_nat (n - k))
    else if (0 <? n)%Z then
      substring 0 (Z.to_nat n) digits ++ "." ++
      substring (Z.to_nat n) (Z.to_nat (k - n)) digits
    else "0." ++ zeros (Z.to_nat (- n)) ++ digits
  else
    let ex := (n - 1)%Z in
    let tail := "e" ++ (if (ex <? 0)%Z then "-" else "+")
                    ++ string_of_pos (Z.to_pos (Z.abs ex)) in
    if (k =? 1)%Z then digits ++ tail
    else substring 0 1 digits ++ "." ++
         substring 1 (Z.to_nat (k - 1)) digits ++ tail.

(** [String(x)] for a number [x]. *)
Definition NumberToString (x : Number) : string :=
  match Prim2SF x with
  | S754_nan => "NaN"
  | S754_zero _ => "0"
  | S754_infinity s => if s then "-Infinity" else "Infinity"
  | S754_finite s m e =>
      let '(n', k, d) := shortest 17 1 m e (magnitude m e) in
      (if s then "-" else "") ++ layout n' k d
  end.

Close Scope Q_scope.

(** *** Operators of the language the source uses *)

(** [typeof v] *)
Definition typeof (v : Value) : string :=
  match v with
  | VNull | VArray _ _ | VObject _ _ => "object"
  | VString _ => "string"
  | VNumber _ => "number"
  | VBoolean _ => "boolean"
  end.

(** [a === b]: by value on primitives (IEEE equality on numbers, under which
    NaN differs from itself and the two zeros are equal), by address on
    objects. *)
Definition strict_equals (a b : Value) : bool :=
  match a, b with
  | VNull, VNull => true
  | VString s, VString t => String.eqb s t
  | VNumber x, VNumber y => PrimFloat.eqb x y
  | VBoolean x, VBoolean y => Bool.eqb x y
  | VArray l _, VArray l' _ => Pos.eqb l l'
  | VObject l _, VObject l' _ => Pos.eqb l l'
  | _, _ => false
  end.

(** [Array.isArray(v)] *)
Definition isArray (v : Value) : bool :=
  match v with VArray _ _ => true | _ => false end.

(** [v === null] *)
Definition is_null (v : Value) : bool :=
  match v with VNull => true | _ => false end.

(** [o[k]] on the own properties of a plain object; [None] is [undefined]. *)
Fixpoint lookup (k : string) (ps : list (string * Value)) : option Value :=
  match ps with
  | [] => None
  | (k', v) :: rest => if String.eqb k k' then Some v else lookup k rest
  end.

Definition get (o : Value) (k : string) : option Value :=
  match o with
  | VObject _ ps => lookup k ps
  | _ => None
  end.

(** Whether [k] is one of the own keys of [o]. *)
Definition has_own_key (o : Value) (k : string) : bool :=
  match get o k with Some _ => true | None => false end.

(** How the call of a method that answers yes or no ends: it returns its
    answer, or it throws. *)
Inductive Called : Type :=
| Returned (answer : bool)
| Threw (message : string).

(** [o.hasOwnProperty(k)]: a call of whatever [o.hasOwnProperty] reads.  A
    plain object inherits the method that tells whether [k] is one of its
    own keys.  An own property named [hasOwnProperty] hides that method, and
    its value, not being a function, cannot be called: the call throws a
    TypeError, whose message names the expression called, [receiver] being
    the text before the dot (the wording is V8's). *)
Definition hasOwnProperty (receiver : string) (o : Value) (k : string)
  : Called :=
  match get o "hasOwnProperty" with
  | Some _ => Threw (receiver ++ ".hasOwnProperty is not a function")
  | None => Returned (has_own_key o k)
  end.

(** The keys [for (i in o)] visits, in its order. *)
Definition keys (o : Value) : list string :=
  match o with
  | VObject _ ps => map fst ps
  | _ => []
  end.

(** The conversion to string that [+] applies to an operand next to a
    string. *)
Fixpoint ToString (v : Value) : string :=
  match v with
  | VNull => "null"
  | VString s => s
  | VNumber n => NumberToString n
  | VBoolean b => if b then "true" else "false"
  | VArray _ es =>
      String.concat ","
        (map (fun e => match e with VNull => "" | _ => ToString e end) es)
  | VObject _ _ => "[object Object]"
  end.

(** The one-character string holding a double quote. *)
Definition quote : string := String (ascii_of_nat 34) "".

(** How a call ends: it returns, or it throws an [Error] carrying a
    message.  A [catch] reads nothing but [error.message]. *)
Inductive Completion : Type :=
| Return
| Throw (message : string).

End JS.

Import JS.

(** ** The source: [assertEquals] and its inner functions *)

(** [isPrimitive], lines 120-122. *)
Definition isPrimitive (expected : Value) : bool :=
  (typeof expected =? "string") || (typeof expected =? "number")
  || (typeof expected =? "boolean").

(** [getTypeName], lines 129-131. *)
Definition getTypeName (value : Value) : string :=
  if isArray value then "Array"
  else if typeof value =? "object"
       then if is_null value then "null" else "Object"
       else typeof value.

(** [emitTypeError], lines 125-127. *)
Definition emitTypeError (expected actual : Value) : Completion :=
  Throw ("type " ++ getTypeName expected ++ " but found type "
         ++ getTypeName actual).

(** The divider of lines 69 and 102, from the expected child. *)
Definition divider (child : Value) : string :=
  if isPrimitive child then " " else if isArray child then "" else ".".

(** [_assertEquals(expected, undefined)]: line 33 decides, [undefined]
    having a type of its own. *)
Definition against_undefined (expected : Value) : Completion :=
  Throw ("type " ++ getTypeName expected ++ " but found type undefined").

(** The two loops of [_assertEquals] that recurse, over the recursive call
    [rec]. *)
Section Loops.

Variable rec : Value -> Value -> Completion.

(** Lines 63-73: [expected[i]] against [actual[i]] for [i] from the index
    reached so far; both arrays have the same length here, so the two
    element lists are walked together. *)
Fixpoint each_index (i : nat) (expected actual : list Value) : Completion :=
  match expected, actual with
  | expected_i :: expected', actual_i :: actual' =>
      match rec expected_i actual_i with
      | Return => each_index (S i) expected' actual'
      | Throw message =>
          Throw ("[" ++ string_of_nat i ++ "]" ++ divider expected_i
                 ++ message)
      end
  | _, _ => Return
  end.

(** Lines 90-107: [i] takes every own key of [expected], [own] being the
    keys left to visit with the values [expected[i]] listed under them.  The
    two calls of [hasOwnProperty] of lines 91 and 94 stand outside the [try]:
    what they throw leaves the loop as it is.  [actual[i]] is read once
    line 94 found the key. *)
Fixpoint each_expected_key (own : list (string * Value))
         (expected actual : Value) : Completion :=
  match own with
  | [] => Return
  | (i, expected_i) :: own' =>
      match hasOwnProperty "expected" expected i with
      | Threw message => Throw message
      | Returned false => each_expected_key own' expected actual
      | Returned true =>
          match hasOwnProperty "actual" actual i with
          | Threw message => Throw message
          | Returned false => Throw (i ++ " but was not found")
          | Returned true =>
              match match get actual i with
                    | Some actual_i => rec expected_i actual_i
                    | None => against_undefined expected_i
                    end
              with
              | Return => each_expected_key own' expected actual
              | Throw message => Throw (i ++ divider expected_i ++ message)
              end
          end
      end
  end.

End Loops.

(** Lines 110-116: [i] takes every own key of [actual], [own] being the keys
    left to visit; the calls of lines 111 and 112 throw what they throw. *)
Fixpoint each_actual_key (own : list string) (expected actual : Value)
  : Completion :=
  match own with
  | [] => Return
  | i :: own' =>
      match hasOwnProperty "actual" actual i with
      | Threw message => Throw message
      | Returned false => each_actual_key own' expected actual
      | Returned true =>
          match hasOwnProperty "expected" expected i with
          | Threw message => Throw message
          | Returned false => Throw (i ++ " to be missing but was found")
          | Returned true => each_actual_key own' expected actual
          end
      end
  end.

(** [_assertEquals], lines 19-118. *)
Fixpoint _assertEquals (expected actual : Value) {struct expected}
  : Completion :=
  if strict_equals expected actual then Return
  else if negb (typeof expected =? typeof actual)
  then emitTypeError expected actual
  else if isPrimitive expected && negb (strict_equals expected actual)
  then Throw (quote ++ ToString expected ++ quote ++ " but found " ++ quote
              ++ ToString actual ++ quote)
  else if is_null expected && negb (is_null actual)
  then emitTypeError expected actual
  else if negb (is_null expected) && is_null actual
  then emitTypeError expected actual
  else if isArray expected && isArray actual
  then match expected, actual with
       | VArray _ es, VArray _ acts =>
           if negb (List.length es =? List.length acts)%nat
           then Throw ("Array length " ++ string_of_nat (List.length es)
                       ++ " but found " ++ string_of_nat (List.length acts))
           else each_index _assertEquals 0 es acts
       | _, _ => Return
       end
  else if isArray expected && negb (isArray actual)
  then emitTypeError expected actual
  else if negb (isArray expected) && isArray actual
  then emitTypeError expected actual
  else if typeof expected =? "object"
  then match expected with
       | VObject _ eps =>
           match each_expected_key _assertEquals eps expected actual with
           | Return => each_actual_key (keys actual) expected actual
           | Throw message => Throw message
           end
       | _ => Return
       end
  else Return.

(** [assertEquals], lines 10-17. *)
Definition assertEquals (message : string) (expected actual : Value)
  : Completion :=
  match _assertEquals expected actual with
  | Return => Return
  | Throw error_message => Throw (message ++ " Expected " ++ error_message)
  end.

(** [array.push(item)] *)
Definition push (array : list string) (item : string) : list string :=
  (array ++ [item])%list.

(** [runTest], lines 147-153: the call ends and leaves the list
    [assertionFailures] as returned, [push] adding at the end. *)
Definition runTest (message : string) (assertionFailures : list string)
           (expected actual : Value) : Completion * list string :=
  match assertEquals message expected actual with
  | Return => (Return, assertionFailures)
  | Throw failure_message => (Return, push assertionFailures failure_message)
  end.

(** ** The values of [runAll], lines 157-187 *)

Definition complexObject1 : Value :=
  VObject 1
    [("propA", VNumber 1);
     ("propB", VObject 2
        [("propA", VArray 3
            [VNumber 1;
             VObject 4 [("propA", VString "a"); ("propB", VString "b")];
             VNumber 3]);
         ("propB", VNumber 1);
         ("propC", VNumber 2)])].

Definition complexObject1Copy : Value :=
  VObject 5
    [("propA", VNumber 1);
     ("propB", VObject 6
        [("propA", VArray 7
            [VNumber 1;
             VObject 8 [("propA", VString "a"); ("propB", VString "b")];
             VNumber 3]);
         ("propB", VNumber 1);
         ("propC", VNumber 2)])].

Definition complexObject2 : Value :=
  VObject 9
    [("propA", VNumber 1);
     ("propB", VObject 10
        [("propB", VNumber 1);
         ("propA", VArray 11
            [VNumber 1;
             VObject 12 [("propA", VString "a"); ("propB", VString "c")];
             VNumber 3]);
         ("propC", VNumber 2)])].

Definition complexObject3 : Value :=
  VObject 13
    [("propA", VNumber 1);
     ("propB", VObject 14
        [("propA", VArray 15
            [VNumber 1;
             VObject 16 [("propA", VString "a"); ("propB", VString "b")];
             VNumber 3]);
         ("propB", VNumber 1)])].

(** The ten calls of lines 190-200, threading [assertionFailures]. *)
Definition runAll_tests : list (string * Value * Value) :=
  [("Test 01: ", VString "abc", VString "abc");
   ("Test 02: ", VString "abcdef", VString "abc");
   ("Test 03: ", VArray 17 [VString "a"], VObject 18 [("0", VString "a")]);
   ("Test 04: ", VArray 19 [VString "a"; VString "b"],
                 VArray 20 [VString "a"; VString "b"; VString "c"]);
   ("Test 05: ", VArray 21 [VString "a"; VString "b"; VString "c"],
                 VArray 22 [VString "a"; VString "b"; VString "c"]);
   ("Test 06: ", complexObject1, complexObject1Copy);
   ("Test 07: ", complexObject1, complexObject2);
   ("Test 08: ", complexObject1, complexObject3);
   ("Test 09: ", VNull, VObject 23 []);
   ("Test 10: ", complexObject3, complexObject1)].

Definition runAll_failures : list string :=
  fold_left
    (fun assertionFailures t =>
       let '(message, expected, actual) := t in
       snd (runTest message assertionFailures expected actual))
    runAll_tests [].

(** ** The shapes of the specification *)

Inductive Shape : Type :=
| SNull | SArray | SRecord | SString | SNumber | SBoolean.

Definition classify (v : Value) : Shape :=
  match v with
  | VNull => SNull
  | VArray _ _ => SArray
  | VObject _ _ => SRecord
  | VString _ => SString
  | VNumber _ => SNumber
  | VBoolean _ => SBoolean
  end.

(** The name a Type Mismatch gives to a shape. *)
Definition shape_name (s : Shape) : string :=
  match s with
  | SNull => "null"
  | SArray => "Array"
  | SRecord => "Object"
  | SString => "string"
  | SNumber => "number"
  | SBoolean => "boolean"
  end.

(** The message of a Value Mismatch. *)
Definition value_mismatch (expected actual : string) : string :=
  quote ++ expected ++ quote ++ " but found " ++ quote ++ actual ++ quote.

(** The one value that is not [===] to itself. *)
Definition is_NaN (v : Value) : bool :=
  match v with
  | VNumber n => PrimFloat.is_nan n
  | _ => false
  end.

(** The pairs a comparison [rec] accepts. *)
Definition accepted (rec : Value -> Value -> Completion)
           (expected actual : Value) : Prop :=
  rec expected actual = Return.

(** A property of [expected] that [actual] has, with a value that [rec]
    accepts. *)
Definition matched (rec : Value -> Value -> Completion) (actual : Value)
           (p : string * Value) : Prop :=
  exists actual_i,
    get actual (fst p) = Some actual_i /\ rec (snd p) actual_i = Return.

(** Two values with the same structure, wherever their objects live: equal
    primitives, arrays alike element by element, records with the same keys
    holding like values, none of the keys being [hasOwnProperty].  Numbers
    are alike when [===], which no NaN is. *)
#[warnings="-register-all"]
Inductive alike : Value -> Value -> Prop :=
| alike_null : alike VNull VNull
| alike_string (s : string) : alike (VString s) (VString s)
| alike_number (x y : Number) :
    PrimFloat.eqb x y = true -> alike (VNumber x) (VNumber y)
| alike_boolean (b : bool) : alike (VBoolean b) (VBoolean b)
| alike_array (l l' : address) (es acts : list Value) :
    Forall2 alike es acts -> alike (VArray l es) (VArray l' acts)
| alike_object (l l' : address) (eps aps : list (string * Value)) :
    lookup "hasOwnProperty" eps = None ->
    Forall (fun p => exists a, lookup (fst p) aps = Some a /\ alike (snd p) a)
           eps ->
    Forall (fun k => has_own_key (VObject l eps) k = true) (map fst aps) ->
    alike (VObject l eps) (VObject l' aps).

(** ** Vocabulary for the verdict, the messages and a run of tests *)

(** What an equal verdict amounts to: the two values are [===] (the same
    primitive, or the same object), or they are arrays that agree element by
    element, or records with the same keys, none of them [hasOwnProperty],
    holding values that agree. *)
#[warnings="-register-all"]
Inductive agree : Value -> Value -> Prop :=
| agree_same (v w : Value) : strict_equals v w = true -> agree v w
| agree_array (l l' : address) (es acts : list Value) :
    Forall2 agree es acts -> agree (VArray l es) (VArray l' acts)
| agree_object (l l' : address) (eps aps : list (string * Value)) :
    lookup "hasOwnProperty" eps = None ->
    Forall (fun p => exists a, lookup (fst p) aps = Some a /\ agree (snd p) a)
           eps ->
    Forall (fun k => has_own_key (VObject l eps) k = true) (map fst aps) ->
    agree (VObject l eps) (VObject l' aps).

(** Values as the language builds them: no object lists a key twice, at any
    depth. *)
#[warnings="-register-all"]
Inductive unique_keys : Value -> Prop :=
| unique_keys_null : unique_keys VNull
| unique_keys_string (s : string) : unique_keys (VString s)
| unique_keys_number (n : Number) : unique_keys (VNumber n)
| unique_keys_boolean (b : bool) : unique_keys (VBoolean b)
| unique_keys_array (l : address) (es : list Value) :
    Forall unique_keys es -> unique_keys (VArray l es)
| unique_keys_object (l : address) (ps : list (string * Value)) :
    NoDup (map fst ps) ->
    Forall (fun p => unique_keys (snd p)) ps ->
    unique_keys (VObject l ps).

(** What a message of [_assertEquals] reports, and where: one of the five
    kinds of discrepancy between two values, or a record whose own key
    [hasOwnProperty] hides the method that lines 91-112 call; at the top, or
    behind the segments of a path that leads there through distinct arrays
    of one length and distinct records that hide no method. *)
Inductive finding : Value -> Value -> string -> Prop :=
| type_finding (e a : Value) :
    classify e <> classify a ->
    finding e a ("type " ++ shape_name (classify e)
                 ++ " but found type " ++ shape_name (classify a))
| value_finding (e a : Value) :
    isPrimitive e = true ->
    classify e = classify a ->
    strict_equals e a = false ->
    finding e a (value_mismatch (ToString e) (ToString a))
| length_finding (l l' : address) (es acts : list Value) :
    l <> l' ->
    List.length es <> List.length acts ->
    finding (VArray l es) (VArray l' acts)
            ("Array length " ++ string_of_nat (List.length es)
             ++ " but found " ++ string_of_nat (List.length acts))
| hidden_in_expected_finding (l l' : address)
                             (eps aps : list (string * Value)) :
    l <> l' ->
    lookup "hasOwnProperty" eps <> None ->
    finding (VObject l eps) (VObject l' aps)
            "expected.hasOwnProperty is not a function"
| hidden_in_actual_finding (l l' : address)
                           (eps aps : list (string * Value)) :
    l <> l' ->
    lookup "hasOwnProperty" eps = None ->
    lookup "hasOwnProperty" aps <> None ->
    finding (VObject l eps) (VObject l' aps)
            "actual.hasOwnProperty is not a function"
| missing_key_finding (l l' : address) (eps aps : list (string * Value))
                      (k : string) :
    l <> l' ->
    lookup "hasOwnProperty" eps = None ->
    lookup "hasOwnProperty" aps = None ->
    In k (map fst eps) ->
    has_own_key (VObject l' aps) k = false ->
    finding (VObject l eps) (VObject l' aps) (k ++ " but was not found")
| extra_key_finding (l l' : address) (eps aps : list (string * Value))
                    (k : string) :
    l <> l' ->
    lookup "hasOwnProperty" eps = None ->
    lookup "hasOwnProperty" aps = None ->
    In k (map fst aps) ->
    has_own_key (VObject l eps) k = false ->
    finding (VObject l eps) (VObject l' aps)
            (k ++ " to be missing but was found")
| finding_at_index (l l' : address) (es acts : list Value) (i : nat)
                   (e a : Value) (m : string) :
    l <> l' ->
    List.length es = List.length acts ->
    nth_error es i = Some e ->
    nth_error acts i = Some a ->
    finding e a m ->
    finding (VArray l es) (VArray l' acts)
            ("[" ++ string_of_nat i ++ "]" ++ divider e ++ m)
| finding_at_key (l l' : address) (eps aps : list (string * Value))
                 (k : string) (e a : Value) (m : string) :
    l <> l' ->
    lookup "hasOwnProperty" eps = None ->
    lookup "hasOwnProperty" aps = None ->
    In (k, e) eps ->
    lookup k aps = Some a ->
    finding e a m ->
    finding (VObject l eps) (VObject l' aps) (k ++ divider e ++ m).

(** Calls of [runTest] one after the other on one list of failures, as in
    lines 190-200. *)
Definition runTests (tests : list (string * Value * Value))
           (assertionFailures : list string) : list string :=
  fold_left
    (fun assertionFailures t =>
       let '(message, expected, actual) := t in
       snd (runTest message assertionFailures expected actual))
    tests assertionFailures.

(** What one test adds to the list: nothing, or its failure message. *)
Definition failure_of (t : string * Value * Value) : list string :=
  let '(message, expected, actual) := t in
  match assertEquals message expected actual with
  | Return => []
  | Throw failure_message => [failure_message]
  end.

(** ** Sanity checks of the embedding on the calls of [runAll] *)

Example runAll_collects :
  runAll_failures =
  ["Test 02:  Expected " ++ value_mismatch "abcdef" "abc";
   "Test 03:  Expected type Array but found type Object";
   "Test 04:  Expected Array length 2 but found 3";
   "Test 07:  Expected propB.propA[1].propB " ++ value_mismatch "b" "c";
   "Test 08:  Expected propB.propC but was not found";
   "Test 09:  Expected type null but found type Object";
   "Test 10:  Expected propB.propC to be missing but was found"].
Proof. vm_compute. reflexivity. Qed.

Example NumberToString_samples :
  map NumberToString [1; 3; -42; 0.5; 1e21; 295147905179352825856;
                      neg_zero; infinity; neg_infinity; nan]%float
  = ["1"; "3"; "-42"; "0.5"; "1e+21"; "295147905179352830000";
     "0"; "Infinity"; "-Infinity"; "NaN"].
Proof. vm_compute. reflexivity. Qed.

(** ** Unfolding [_assertEquals] *)

Lemma getTypeName_shape (v : Value) :
  getTypeName v = shape_name (classify v).
Proof. destruct v; reflexivity. Qed.

Lemma isPrimitive_shape (v : Value) :
  isPrimitive v = match classify v with
                  | SString | SNumber | SBoolean => true
                  | _ => false
                  end.
Proof. destruct v; reflexivity. Qed.

Lemma strict_equals_shape (a b : Value) :
  strict_equals a b = true -> classify a = classify b.
Proof. destruct a, b; simpl; intros H; try discriminate; reflexivity. Qed.

(** Two distinct arrays: lines 55-74 decide. *)
Lemma _assertEquals_arrays (l l' : address) (es acts : list Value) :
  l <> l' ->
  _assertEquals (VArray l es) (VArray l' acts) =
  if negb (List.length es =? List.length acts)%nat
  then Throw ("Array length " ++ string_of_nat (List.length es)
              ++ " but found " ++ string_of_nat (List.length acts))
  else each_index _assertEquals 0 es acts.
Proof.
  intros Hl. apply Pos.eqb_neq in Hl.
  cbn [_assertEquals strict_equals]. rewrite Hl. reflexivity.
Qed.

(** Two distinct plain objects: lines 88-117 decide. *)
Lemma _assertEquals_objects (l l' : address) (eps aps : list (string * Value)) :
  l <> l' ->
  _assertEquals (VObject l eps) (VObject l' aps) =
  match each_expected_key _assertEquals eps (VObject l eps) (VObject l' aps)
  with
  | Return => each_actual_key (map fst aps) (VObject l eps) (VObject l' aps)
  | Throw message => Throw message
  end.
Proof.
  intros Hl. apply Pos.eqb_neq in Hl.
  cbn [_assertEquals strict_equals]. rewrite Hl. reflexivity.
Qed.

(** ** Type Mismatch *)

(** Values of different shapes are never [===]. *)
Lemma strict_equals_other_shape (a b : Value) :
  classify a <> classify b -> strict_equals a b = false.
Proof.
  intros H. destruct (strict_equals a b) eqn:E; [|reflexivity].
  apply strict_equals_shape in E. contradiction.
Qed.

(** C2. Whenever the shapes of [expected] and [actual] differ (null, array,
    record, string, number, boolean), [_assertEquals] throws the Type
    Mismatch that names the two shapes, whatever the values are: the number 1
    against the string "1" is a Type Mismatch, and null against a non-null
    value is the same Type Mismatch with null named [null], so that
    [null] against [{}] gives [type null but found type Object]. *)
Theorem type_mismatch_precedes_values :
  (forall expected actual : Value,
      classify expected <> classify actual ->
      _assertEquals expected actual =
      Throw ("type " ++ shape_name (classify expected)
             ++ " but found type " ++ shape_name (classify actual)))
  /\ _assertEquals (VNumber 1) (VString "1") =
     Throw "type number but found type string"
  /\ (forall l : address,
         _assertEquals VNull (VObject l []) =
         Throw "type null but found type Object").
Proof.
  assert (G : forall expected actual : Value,
             classify expected <> classify actual ->
             _assertEquals expected actual =
             Throw ("type " ++ shape_name (classify expected)
                    ++ " but found type " ++ shape_name (classify actual))).
  { intros expected actual H.
    destruct expected, actual; simpl in H; try congruence; reflexivity. }
  split; [exact G|]. split.
  - apply (G (VNumber 1) (VString "1")). discriminate.
  - intros l. apply (G VNull (VObject l [])). discriminate.
Qed.

Lemma type_mismatch_precedes_values_witness :
  classify (VArray 1 [VString "a"]) <> classify (VObject 2 [("0", VString "a")])
  /\ _assertEquals (VArray 1 [VString "a"]) (VObject 2 [("0", VString "a")]) =
     Throw "type Array but found type Object".
Proof.
  split.
  - discriminate.
  - apply (proj1 type_mismatch_precedes_values
             (VArray 1 [VString "a"]) (VObject 2 [("0", VString "a")])).
    discriminate.
Defined.

(** ** Value Mismatch *)

(** C5. Two primitives of the same kind that are not [===] give the Value
    Mismatch that quotes both, expected first; so "abcdef" against "abc"
    gives ["abcdef" but found "abc"]. *)
Theorem primitive_value_mismatch :
  (forall expected actual : Value,
      isPrimitive expected = true ->
      typeof expected = typeof actual ->
      strict_equals expected actual = false ->
      _assertEquals expected actual =
      Throw (value_mismatch (ToString expected) (ToString actual)))
  /\ _assertEquals (VString "abcdef") (VString "abc") =
     Throw (value_mismatch "abcdef" "abc").
Proof.
  split; [|reflexivity].
  intros expected actual Hp Ht Hne.
  destruct expected; try discriminate Hp;
    destruct actual; try discriminate Ht;
    cbn [strict_equals] in Hne;
    cbn [_assertEquals strict_equals typeof isPrimitive]; rewrite Hne;
    reflexivity.
Qed.

Lemma primitive_value_mismatch_witness :
  (isPrimitive (VBoolean true) = true
   /\ typeof (VBoolean true) = typeof (VBoolean false)
   /\ strict_equals (VBoolean true) (VBoolean false) = false)
  /\ _assertEquals (VBoolean true) (VBoolean false) =
     Throw (value_mismatch "true" "false").
Proof.
  split.
  - repeat split.
  - exact (proj1 primitive_value_mismatch (VBoolean true) (VBoolean false)
             eq_refl eq_refl eq_refl).
Defined.

(** C10. NaN is a number that is not [===] to itself, so NaN against NaN is
    not equal: it is the Value Mismatch ["NaN" but found "NaN"]. *)
Theorem nan_differs_from_itself :
  strict_equals (VNumber nan) (VNumber nan) = false
  /\ _assertEquals (VNumber nan) (VNumber nan) =
     Throw (value_mismatch "NaN" "NaN").
Proof. split; vm_compute; reflexivity. Qed.

(** ** Length Mismatch *)

(** C8. Two arrays of different lengths give the Length Mismatch with the two
    lengths in decimal, whatever their elements are; so ["a","b"] against
    ["a","b","c"] gives [Array length 2 but found 3]. *)
Theorem array_length_mismatch :
  (forall (l l' : address) (es acts : list Value),
      l <> l' ->
      List.length es <> List.length acts ->
      _assertEquals (VArray l es) (VArray l' acts) =
      Throw ("Array length " ++ string_of_nat (List.length es)
             ++ " but found " ++ string_of_nat (List.length acts)))
  /\ _assertEquals (VArray 19 [VString "a"; VString "b"])
                   (VArray 20 [VString "a"; VString "b"; VString "c"]) =
     Throw "Array length 2 but found 3".
Proof.
  split; [|reflexivity].
  intros l l' es acts Hl Hlen.
  rewrite _assertEquals_arrays by assumption.
  apply Nat.eqb_neq in Hlen. rewrite Hlen. reflexivity.
Qed.

Lemma array_length_mismatch_witness :
  (1 <> 2)%positive
  /\ List.length [VNumber nan] <> List.length (@nil Value)
  /\ _assertEquals (VArray 1 [VNumber nan]) (VArray 2 []) =
     Throw "Array length 1 but found 0".
Proof.
  split; [discriminate|]. split; [discriminate|].
  apply (proj1 array_length_mismatch 1%positive 2%positive
           [VNumber nan] []); discriminate.
Defined.

(** ** Reflexivity *)
Lemma strict_equals_refl (v : Value) :
  is_NaN v = false -> strict_equals v v = true.
Proof.
  destruct v; simpl; intros H.
  - reflexivity.
  - apply String.eqb_refl.
  - unfold is_nan in H. apply negb_false_iff in H. exact H.
  - apply Bool.eqb_reflx.
  - apply Pos.eqb_refl.
  - apply Pos.eqb_refl.
Qed.

Lemma _assertEquals_identical (expected actual : Value) :
  strict_equals expected actual = true ->
  _assertEquals expected actual = Return.
Proof.
  intros H. destruct expected; cbn [_assertEquals]; rewrite H; reflexivity.
Qed.

(** C3 (as the code has it). Every value other than the number NaN compares
    equal to itself: a primitive because it is [===] to itself, an array or a
    plain object because it is the same object, whatever it contains. *)
Theorem reflexive_but_for_nan :
  forall v : Value, is_NaN v = false -> _assertEquals v v = Return.
Proof.
  intros v H. apply _assertEquals_identical, strict_equals_refl, H.
Qed.

Lemma reflexive_but_for_nan_witness :
  is_NaN (VArray 30 [VNumber nan; complexObject1]) = false
  /\ _assertEquals (VArray 30 [VNumber nan; complexObject1])
                   (VArray 30 [VNumber nan; complexObject1]) = Return.
Proof.
  split.
  - reflexivity.
  - apply (reflexive_but_for_nan (VArray 30 [VNumber nan; complexObject1])).
    reflexivity.
Defined.

(** C3 as stated fails at the number NaN. *)
Lemma nan_is_not_reflexive :
  ~ (forall v : Value, _assertEquals v v = Return).
Proof.
  intros H. specialize (H (VNumber nan)). vm_compute in H. discriminate H.
Qed.

(** ** The loops *)

Section LoopFacts.

Variable rec : Value -> Value -> Completion.

Lemma each_index_all (i : nat) (es acts : list Value) :
  Forall2 (accepted rec) es acts -> each_index rec i es acts = Return.
Proof.
  intros H. revert i.
  induction H as [|e a es acts He _ IH]; intros i; simpl.
  - reflexivity.
  - rewrite He. apply IH.
Qed.


Lemma each_index_nth (k i : nat) (es acts : list Value) (m : string) :
  List.length es = List.length acts ->
  i < List.length es ->
  (forall j, j < i -> rec (nth j es VNull) (nth j acts VNull) = Return) ->
  rec (nth i es VNull) (nth i acts VNull) = Throw m ->
  each_index rec k es acts =
  Throw ("[" ++ string_of_nat (k + i) ++ "]" ++ divider (nth i es VNull)
         ++ m).
Proof.
  revert k i acts.
  induction es as [|e es IH]; intros k i acts Hlen Hi Hbefore Hat.
  - simpl in Hi. lia.
  - destruct acts as [|a acts]; [discriminate Hlen|].
    destruct i as [|i]; simpl in *.
    + rewrite Hat, Nat.add_0_r. reflexivity.
    + rewrite (Hbefore 0) by lia.
      rewrite (IH (S k) i acts); try lia; try assumption.
      * rewrite Nat.add_succ_r. reflexivity.
      * intros j Hj. apply (Hbefore (S j)). lia.
Qed.

End LoopFacts.

(** *** Reading the properties of a record *)

Lemma lookup_In (ps : list (string * Value)) (k : string) (v : Value) :
  lookup k ps = Some v -> In (k, v) ps.
Proof.
  induction ps as [|[k' v'] ps IH]; simpl; intros H; [discriminate H|].
  destruct (String.eqb_spec k k') as [->|_].
  - injection H as ->. left. reflexivity.
  - right. apply IH, H.
Qed.

Lemma lookup_None (ps : list (string * Value)) (k : string) :
  lookup k ps = None <-> ~ In k (map fst ps).
Proof.
  induction ps as [|[k' v'] ps IH]; simpl.
  - split; auto.
  - destruct (String.eqb_spec k k') as [->|Hne].
    + split; [discriminate|]. intros H. exfalso. apply H. left. reflexivity.
    + rewrite IH. split.
      * intros H [Heq|Hin]; [apply Hne; symmetry; exact Heq|apply H, Hin].
      * intros H Hin. apply H. right. exact Hin.
Qed.

(** The value listed under an own key is the one [o[k]] reads: keys of an
    object are distinct. *)
Lemma lookup_own_entry (ps : list (string * Value)) (k : string) (v : Value) :
  NoDup (map fst ps) -> In (k, v) ps -> lookup k ps = Some v.
Proof.
  induction ps as [|[k' v'] ps IH]; simpl; intros Hnd Hin.
  - contradiction.
  - inversion Hnd as [|? ? Hnotin Hnd']; subst.
    destruct Hin as [Heq|Hin].
    + injection Heq as -> ->. rewrite String.eqb_refl. reflexivity.
    + destruct (String.eqb_spec k k') as [->|_].
      * exfalso. apply Hnotin. apply (in_map fst) in Hin. exact Hin.
      * apply IH; assumption.
Qed.

Lemma has_own_key_get (o : Value) (k : string) :
  has_own_key o k = false <-> get o k = None.
Proof.
  unfold has_own_key. destruct (get o k); split; congruence.
Qed.

Lemma has_own_key_In (l : address) (ps : list (string * Value)) (k : string) :
  has_own_key (VObject l ps) k = true <-> In k (map fst ps).
Proof.
  unfold has_own_key. simpl. split.
  - destruct (lookup k ps) as [v|] eqn:E; [|discriminate].
    intros _. apply lookup_In in E. apply (in_map fst) in E. exact E.
  - intros Hin. destruct (lookup k ps) eqn:E; [reflexivity|].
    apply lookup_None in E. contradiction.
Qed.

(** Every key the first loop visits is an own key of [expected], and every
    key the second loop visits an own key of [actual]. *)
Lemma own_entries_present (l : address) (ps : list (string * Value)) :
  Forall (fun p => has_own_key (VObject l ps) (fst p) = true) ps.
Proof.
  apply Forall_forall. intros p Hin. apply has_own_key_In.
  apply in_map, Hin.
Qed.

Lemma own_keys_present (l : address) (ps : list (string * Value)) :
  Forall (fun k => has_own_key (VObject l ps) k = true) (map fst ps).
Proof.
  apply Forall_forall. intros k Hin. apply has_own_key_In, Hin.
Qed.

(** *** The loops over the keys of records that hide no method *)

Section KeyLoops.

Variable rec : Value -> Value -> Completion.
Variables expected actual : Value.
Hypothesis expected_plain : get expected "hasOwnProperty" = None.
Hypothesis actual_plain : get actual "hasOwnProperty" = None.

Lemma each_expected_key_step (i : string) (e : Value)
      (own : list (string * Value)) :
  has_own_key expected i = true ->
  each_expected_key rec ((i, e) :: own) expected actual =
  match get actual i with
  | None => Throw (i ++ " but was not found")
  | Some a =>
      match rec e a with
      | Return => each_expected_key rec own expected actual
      | Throw m => Throw (i ++ divider e ++ m)
      end
  end.
Proof.
  intros Hi. cbn [each_expected_key]. unfold hasOwnProperty.
  rewrite expected_plain, actual_plain, Hi. unfold has_own_key.
  destruct (get actual i); reflexivity.
Qed.

Lemma each_actual_key_step (i : string) (own : list string) :
  has_own_key actual i = true ->
  each_actual_key (i :: own) expected actual =
  if has_own_key expected i
  then each_actual_key own expected actual
  else Throw (i ++ " to be missing but was found").
Proof.
  intros Hi. cbn [each_actual_key]. unfold hasOwnProperty.
  rewrite expected_plain, actual_plain, Hi. reflexivity.
Qed.

Lemma each_expected_key_all (own : list (string * Value)) :
  Forall (fun p => has_own_key expected (fst p) = true) own ->
  (Forall (matched rec actual) own <->
   each_expected_key rec own expected actual = Return).
Proof.
  induction own as [|[k e] own IH]; intros Hp.
  - simpl. split; auto.
  - inversion Hp as [|? ? Hk Hrest]; subst. simpl in Hk.
    rewrite (each_expected_key_step k e own Hk). split.
    + intros H. inversion H as [|? ? [a [Hget Hrec]] Hm]; subst.
      simpl in Hget, Hrec. rewrite Hget, Hrec. apply IH; assumption.
    + destruct (get actual k) as [a|] eqn:Hget; [|discriminate].
      destruct (rec e a) eqn:Hrec; [|discriminate].
      intros H. constructor; [|apply IH; assumption].
      exists a. split; assumption.
Qed.


Lemma each_expected_key_missing (pre post : list (string * Value))
      (k : string) (e : Value) :
  Forall (fun p => has_own_key expected (fst p) = true)
         (pre ++ (k, e) :: post)%list ->
  Forall (matched rec actual) pre ->
  get actual k = None ->
  each_expected_key rec (pre ++ (k, e) :: post) expected actual =
  Throw (k ++ " but was not found").
Proof.
  intros Hp H Hget.
  induction H as [|[k' e'] pre [a' [Hget' Hrec']] _ IH];
    cbn [app] in *; inversion Hp as [|? ? Hk Hrest]; subst; simpl in Hk;
    rewrite each_expected_key_step by assumption.
  - rewrite Hget. reflexivity.
  - simpl in Hget', Hrec'. rewrite Hget', Hrec'. apply IH, Hrest.
Qed.

Lemma each_expected_key_throw (own : list (string * Value)) (m : string) :
  Forall (fun p => has_own_key expected (fst p) = true) own ->
  each_expected_key rec own expected actual = Throw m ->
  (exists k, In k (map fst own) /\ get actual k = None
             /\ m = k ++ " but was not found")
  \/ (exists k e a m',
         In (k, e) own /\ get actual k = Some a /\ rec e a = Throw m'
         /\ m = k ++ divider e ++ m').
Proof.
  induction own as [|[k e] own IH]; intros Hp H; [discriminate H|].
  inversion Hp as [|? ? Hk Hrest]; subst. simpl in Hk.
  rewrite (each_expected_key_step k e own Hk) in H.
  destruct (get actual k) as [a|] eqn:Hget.
  - destruct (rec e a) as [|m0] eqn:E.
    + destruct (IH Hrest H) as [(k' & Hin & Hnone & Hm)
                               |(k' & e' & a' & m' & Hin & Hsome & Hr & Hm)].
      * left. exists k'. simpl. auto.
      * right. exists k', e', a', m'. simpl. auto.
    + injection H as <-. right. exists k, e, a, m0. simpl. auto.
  - injection H as <-. left. exists k. simpl. auto.
Qed.

Lemma each_actual_key_first_extra (pre post : list string) (k : string) :
  Forall (fun k' => has_own_key actual k' = true) (pre ++ k :: post)%list ->
  Forall (fun k' => has_own_key expected k' = true) pre ->
  has_own_key expected k = false ->
  each_actual_key (pre ++ k :: post) expected actual =
  Throw (k ++ " to be missing but was found").
Proof.
  intros Hp H Hk.
  induction H as [|k' pre Hk' _ IH];
    cbn [app] in *; inversion Hp as [|? ? Ha Hrest]; subst;
    rewrite each_actual_key_step by assumption.
  - rewrite Hk. reflexivity.
  - rewrite Hk'. apply IH, Hrest.
Qed.

Lemma each_actual_key_none (own : list string) :
  Forall (fun k => has_own_key actual k = true) own ->
  Forall (fun k => has_own_key expected k = true) own ->
  each_actual_key own expected actual = Return.
Proof.
  intros Hp H. induction H as [|k own Hk _ IH].
  - reflexivity.
  - inversion Hp as [|? ? Ha Hrest]; subst.
    rewrite each_actual_key_step by assumption. rewrite Hk. apply IH, Hrest.
Qed.

Lemma each_actual_key_return (own : list string) :
  Forall (fun k => has_own_key actual k = true) own ->
  each_actual_key own expected actual = Return ->
  Forall (fun k => has_own_key expected k = true) own.
Proof.
  induction own as [|k own IH]; intros Hp H; [constructor|].
  inversion Hp as [|? ? Ha Hrest]; subst.
  rewrite each_actual_key_step in H by assumption.
  destruct (has_own_key expected k) eqn:E; [|discriminate H].
  constructor; [exact E|exact (IH Hrest H)].
Qed.

Lemma each_actual_key_throw (own : list string) (m : string) :
  Forall (fun k => has_own_key actual k = true) own ->
  each_actual_key own expected actual = Throw m ->
  exists k, In k own /\ has_own_key expected k = false
            /\ m = k ++ " to be missing but was found".
Proof.
  induction own as [|k own IH]; intros Hp H; [discriminate H|].
  inversion Hp as [|? ? Ha Hrest]; subst.
  rewrite each_actual_key_step in H by assumption.
  destruct (has_own_key expected k) eqn:E.
  - destruct (IH Hrest H) as (k' & Hin & Hk' & Hm). exists k'. simpl. auto.
  - injection H as <-. exists k. simpl. auto.
Qed.

End KeyLoops.

(** *** Two distinct records *)

(** Neither hides [hasOwnProperty]: the two loops decide. *)
Lemma _assertEquals_plain_objects
      (l l' : address) (eps aps : list (string * Value)) :
  l <> l' ->
  lookup "hasOwnProperty" eps = None ->
  lookup "hasOwnProperty" aps = None ->
  (Forall (matched _assertEquals (VObject l' aps)) eps <->
   each_expected_key _assertEquals eps (VObject l eps) (VObject l' aps)
   = Return)
  /\ (Forall (fun k => has_own_key (VObject l eps) k = true) (map fst aps) <->
      each_actual_key (map fst aps) (VObject l eps) (VObject l' aps) = Return).
Proof.
  intros Hl He Ha. split.
  - apply each_expected_key_all; try assumption. apply own_entries_present.
  - split.
    + apply each_actual_key_none; try assumption. apply own_keys_present.
    + apply each_actual_key_return; try assumption. apply own_keys_present.
Qed.

(** The expected record hides [hasOwnProperty]: line 91 throws at its first
    key. *)
Lemma _assertEquals_hidden_in_expected
      (l l' : address) (eps aps : list (string * Value)) :
  l <> l' ->
  lookup "hasOwnProperty" eps <> None ->
  _assertEquals (VObject l eps) (VObject l' aps) =
  Throw "expected.hasOwnProperty is not a function".
Proof.
  intros Hl He. rewrite _assertEquals_objects by assumption.
  destruct eps as [|[k e] eps]; [exfalso; apply He; reflexivity|].
  cbn [each_expected_key]. unfold hasOwnProperty at 1.
  cbn [get]. destruct (lookup "hasOwnProperty" ((k, e) :: eps));
    [reflexivity|exfalso; apply He; reflexivity].
Qed.

(** The actual record alone hides [hasOwnProperty]: line 94 throws at the
    first key of the expected record or, if it has none, line 111 at the
    first key of the actual one. *)
Lemma _assertEquals_hidden_in_actual
      (l l' : address) (eps aps : list (string * Value)) :
  l <> l' ->
  lookup "hasOwnProperty" eps = None ->
  lookup "hasOwnProperty" aps <> None ->
  _assertEquals (VObject l eps) (VObject l' aps) =
  Throw "actual.hasOwnProperty is not a function".
Proof.
  intros Hl He Ha. rewrite _assertEquals_objects by assumption.
  destruct eps as [|[k e] eps].
  - cbn [each_expected_key].
    destruct aps as [|[k a] aps]; [exfalso; apply Ha; reflexivity|].
    cbn [map fst each_actual_key]. unfold hasOwnProperty at 1. cbn [get].
    destruct (lookup "hasOwnProperty" ((k, a) :: aps));
      [reflexivity|exfalso; apply Ha; reflexivity].
  - cbn [each_expected_key]. unfold hasOwnProperty at 1 2. cbn [get].
    rewrite He.
    assert (Hk : has_own_key (VObject l ((k, e) :: eps)) k = true).
    { apply has_own_key_In. left. reflexivity. }
    rewrite Hk.
    destruct (lookup "hasOwnProperty" aps);
      [reflexivity|exfalso; apply Ha; reflexivity].
Qed.

(** A key the expected record lacks is no key of an actual record whose keys
    are all keys of the expected one. *)
Lemma lacking_key_of_both (l : address) (eps aps : list (string * Value))
      (k : string) :
  lookup k eps = None ->
  Forall (fun k' => has_own_key (VObject l eps) k' = true) (map fst aps) ->
  lookup k aps = None.
Proof.
  intros He H. apply lookup_None. intros Hin.
  rewrite Forall_forall in H. specialize (H k Hin).
  unfold has_own_key in H. simpl in H. rewrite He in H. discriminate H.
Qed.

(** ** Copies *)

(** Induction over a value, with the hypothesis on every element of an array
    and on every property value of a plain object. *)
Lemma Value_nested_ind (P : Value -> Prop) :
  P VNull ->
  (forall s, P (VString s)) ->
  (forall n, P (VNumber n)) ->
  (forall b, P (VBoolean b)) ->
  (forall l es, Forall P es -> P (VArray l es)) ->
  (forall l ps, Forall (fun p => P (snd p)) ps -> P (VObject l ps)) ->
  forall v, P v.
Proof.
  intros Hnull Hstring Hnumber Hboolean Harray Hobject.
  fix IH 1. intros [ | s | n | b | l es | l ps].
  - exact Hnull.
  - apply Hstring.
  - apply Hnumber.
  - apply Hboolean.
  - apply Harray. induction es as [|e es IHes]; constructor.
    + apply IH.
    + exact IHes.
  - apply Hobject. induction ps as [|[k e] ps IHps]; constructor.
    + apply IH.
    + exact IHps.
Qed.

Lemma alike_elements_accepted (es acts : list Value) :
  Forall (fun e => forall a, alike e a -> _assertEquals e a = Return) es ->
  Forall2 alike es acts ->
  Forall2 (accepted _assertEquals) es acts.
Proof.
  intros IH H. induction H as [|e a es acts Hea _ IH2].
  - constructor.
  - inversion IH as [|? ? He Hes]; subst.
    constructor; [apply He, Hea|apply IH2, Hes].
Qed.

Lemma alike_properties_matched (l' : address) (eps aps : list (string * Value)) :
  Forall (fun p => forall a, alike (snd p) a -> _assertEquals (snd p) a = Return)
         eps ->
  Forall (fun p => exists a, lookup (fst p) aps = Some a /\ alike (snd p) a)
         eps ->
  Forall (matched _assertEquals (VObject l' aps)) eps.
Proof.
  intros IH H. induction H as [|p eps [a [Hget Ha]] _ IH2].
  - constructor.
  - inversion IH as [|? ? He Hes]; subst.
    constructor; [|apply IH2, Hes].
    exists a. split; [exact Hget|apply He, Ha].
Qed.

(** A copy compares equal: what scenario 6 of [runAll] relies on. *)
Lemma alike_compare_equal (expected : Value) :
  forall actual, alike expected actual -> _assertEquals expected actual = Return.
Proof.
  induction expected as [ | s | n | b | l es IH | l eps IH ]
    using Value_nested_ind; intros actual H; inversion H; subst.
  - reflexivity.
  - apply _assertEquals_identical. apply String.eqb_refl.
  - apply _assertEquals_identical. assumption.
  - apply _assertEquals_identical. apply Bool.eqb_reflx.
  - destruct (Pos.eq_dec l l') as [->|Hl].
    + apply _assertEquals_identical. apply Pos.eqb_refl.
    + rewrite _assertEquals_arrays by assumption.
      assert (Hacc : Forall2 (accepted _assertEquals) es acts)
        by (apply alike_elements_accepted; assumption).
      rewrite (Forall2_length Hacc), Nat.eqb_refl. cbn [negb].
      apply each_index_all, Hacc.
  - destruct (Pos.eq_dec l l') as [->|Hl].
    + apply _assertEquals_identical. apply Pos.eqb_refl.
    + match goal with
        He : lookup _ eps = None, Hk : Forall _ (map fst aps) |- _ =>
          pose proof (lacking_key_of_both l eps aps _ He Hk) as Ha;
          destruct (_assertEquals_plain_objects l l' eps aps Hl He Ha)
            as [Hfirst Hsecond]
      end.
      rewrite _assertEquals_objects by assumption.
      rewrite (proj1 Hfirst) by (apply alike_properties_matched; assumption).
      apply Hsecond. assumption.
Qed.

Example complexObject1_copy_equal :
  alike complexObject1 complexObject1Copy
  /\ _assertEquals complexObject1 complexObject1Copy = Return.
Proof.
  split; [|vm_compute; reflexivity].
  repeat first
    [ apply alike_object | apply alike_array | apply alike_number
    | apply alike_string | apply Forall_cons | apply Forall_nil
    | apply Forall2_cons | apply Forall2_nil
    | eexists; split; [reflexivity|] | reflexivity ].
Qed.

(** ** Paths: the segment and the divider *)





(** ** First failure only *)

Lemma nth_of_firstn (i j : nat) (xs ys : list Value) :
  firstn (S i) xs = firstn (S i) ys -> j <= i ->
  nth j xs VNull = nth j ys VNull.
Proof.
  revert j xs ys. induction i as [|i IH]; intros j xs ys H Hj.
  - assert (j = 0) by lia. subst j.
    destruct xs, ys; simpl in *; congruence.
  - destruct xs as [|x xs], ys as [|y ys]; try discriminate H.
    + reflexivity.
    + injection H as Hxy H. destruct j as [|j]; simpl.
      * exact Hxy.
      * apply IH; [exact H|lia].
Qed.

Lemma length_of_firstn (i : nat) (xs ys : list Value) :
  firstn (S i) xs = firstn (S i) ys -> i < List.length ys ->
  i < List.length xs.
Proof.
  intros H Hi. apply (f_equal (@List.length Value)) in H.
  rewrite !length_firstn in H. lia.
Qed.

(** C4. In two distinct arrays of the same length, the lowest index whose
    elements compare unequal decides the outcome alone: the message is the
    one of that index, and the elements after it have no effect on it, even
    if they differ as well (here at indices 2 and 5). *)
Theorem only_the_first_differing_index :
  (forall (l l' : address) (es acts : list Value) (i : nat) (m : string),
      l <> l' ->
      List.length es = List.length acts ->
      i < List.length es ->
      (forall j, j < i ->
                 _assertEquals (nth j es VNull) (nth j acts VNull) = Return) ->
      _assertEquals (nth i es VNull) (nth i acts VNull) = Throw m ->
      _assertEquals (VArray l es) (VArray l' acts) =
      Throw ("[" ++ string_of_nat i ++ "]" ++ divider (nth i es VNull) ++ m)
      /\ forall es2 acts2 : list Value,
          List.length es2 = List.length acts2 ->
          firstn (S i) es2 = firstn (S i) es ->
          firstn (S i) acts2 = firstn (S i) acts ->
          _assertEquals (VArray l es2) (VArray l' acts2) =
          _assertEquals (VArray l es) (VArray l' acts))
  /\ _assertEquals
       (VArray 1 [VString "a"; VString "b"; VString "c";
                  VString "d"; VString "e"; VString "f"])
       (VArray 2 [VString "a"; VString "b"; VString "x";
                  VString "d"; VString "e"; VString "y"]) =
     Throw ("[2] " ++ value_mismatch "c" "x").
Proof.
  split; [|vm_compute; reflexivity].
  assert (G : forall (l l' : address) (es acts : list Value) (i : nat)
                     (m : string),
             l <> l' ->
             List.length es = List.length acts ->
             i < List.length es ->
             (forall j, j < i ->
                        _assertEquals (nth j es VNull) (nth j acts VNull)
                        = Return) ->
             _assertEquals (nth i es VNull) (nth i acts VNull) = Throw m ->
             _assertEquals (VArray l es) (VArray l' acts) =
             Throw ("[" ++ string_of_nat i ++ "]" ++ divider (nth i es VNull)
                    ++ m)).
  { intros l l' es acts i m Hl Hlen Hi Hbefore Hat.
    rewrite _assertEquals_arrays by assumption.
    rewrite Hlen, Nat.eqb_refl. cbn [negb].
    apply (each_index_nth _assertEquals 0 i); assumption. }
  intros l l' es acts i m Hl Hlen Hi Hbefore Hat.
  split; [apply G; assumption|].
  intros es2 acts2 Hlen2 Hes Hacts.
  rewrite (G l l' es acts i m) by assumption.
  rewrite (G l l' es2 acts2 i m); try assumption.
  - rewrite (nth_of_firstn i i es2 es) by (assumption || lia). reflexivity.
  - apply (length_of_firstn i es2 es); assumption.
  - intros j Hj.
    rewrite (nth_of_firstn i j es2 es), (nth_of_firstn i j acts2 acts)
      by (assumption || lia).
    apply Hbefore, Hj.
  - rewrite (nth_of_firstn i i es2 es), (nth_of_firstn i i acts2 acts)
      by (assumption || lia).
    exact Hat.
Qed.

Lemma only_the_first_differing_index_witness :
  let es := [VNumber 1; VNumber 2; VNumber 3; VNumber 4] in
  let acts := [VNumber 1; VNumber 2; VString "3"; VNull] in
  ((1 <> 2)%positive
   /\ List.length es = List.length acts
   /\ 2 < List.length es
   /\ (forall j, j < 2 ->
                 _assertEquals (nth j es VNull) (nth j acts VNull) = Return)
   /\ _assertEquals (nth 2 es VNull) (nth 2 acts VNull) =
      Throw "type number but found type string")
  /\ _assertEquals (VArray 1 es) (VArray 2 acts) =
     Throw "[2] type number but found type string".
Proof.
  intros es acts.
  assert (H1 : (1 <> 2)%positive) by discriminate.
  assert (H2 : List.length es = List.length acts) by reflexivity.
  assert (H3 : 2 < List.length es) by (simpl; lia).
  assert (H4 : forall j, j < 2 ->
                 _assertEquals (nth j es VNull) (nth j acts VNull) = Return).
  { intros [|[|j]] Hj; [reflexivity|reflexivity|lia]. }
  assert (H5 : _assertEquals (nth 2 es VNull) (nth 2 acts VNull) =
               Throw "type number but found type string") by reflexivity.
  split; [repeat split; assumption|].
  exact (proj1 (proj1 only_the_first_differing_index
                  1%positive 2%positive es acts 2
                  "type number but found type string" H1 H2 H3 H4 H5)).
Defined.

(** ** Records: missing and extra keys *)

(** C6 (the code departs from it). Where the first key that the actual
    record lacks is named [hasOwnProperty], the comparison does not report
    the Missing Key: line 91 calls the value found under that key in the
    expected record, and what comes out is the message of the TypeError.
    Here the expected record is [{hasOwnProperty: 1}] and the actual one
    [{}]. *)
Theorem missing_key_named_hasOwnProperty :
  _assertEquals (VObject 1 [("hasOwnProperty", VNumber 1)]) (VObject 2 []) =
  Throw "expected.hasOwnProperty is not a function"
  /\ _assertEquals (VObject 1 [("hasOwnProperty", VNumber 1)]) (VObject 2 []) <>
     Throw "hasOwnProperty but was not found".
Proof. split; [reflexivity|discriminate]. Qed.

(** C7 (the code departs from it). Where the actual record has every key of
    the expected one with an equal value and one key more, named
    [hasOwnProperty], the comparison does not report the Extra Key: line 94
    calls the value found under that key in the actual record, at the first
    key of the expected record, and what comes out is the message of the
    TypeError.  Here the expected record is [{a: 1}] and the actual one
    [{a: 1, hasOwnProperty: 2}]. *)
Theorem extra_key_named_hasOwnProperty :
  _assertEquals (VObject 1 [("a", VNumber 1)])
                (VObject 2 [("a", VNumber 1); ("hasOwnProperty", VNumber 2)]) =
  Throw "actual.hasOwnProperty is not a function"
  /\ _assertEquals (VObject 1 [("a", VNumber 1)])
                   (VObject 2 [("a", VNumber 1); ("hasOwnProperty", VNumber 2)])
     <> Throw "hasOwnProperty to be missing but was found".
Proof. split; [reflexivity|discriminate]. Qed.

(** X11. Two distinct records neither of which has an own key named
    [hasOwnProperty] are compared key by key in the order of the expected
    record.  At the first key that the actual record lacks, every earlier
    key having been found with an equal value, the outcome is the Missing
    Key message for that key, whatever the expected value under it and
    whatever the later keys are.  So [complexObject1] against
    [complexObject3], which lacks [propB.propC], gives
    [propB.propC but was not found]. *)
Theorem first_missing_key_of_plain_records :
  (forall (l l' : address) (pre post aps : list (string * Value))
          (k : string) (e : Value),
      l <> l' ->
      lookup "hasOwnProperty" (pre ++ (k, e) :: post)%list = None ->
      lookup "hasOwnProperty" aps = None ->
      Forall (matched _assertEquals (VObject l' aps)) pre ->
      has_own_key (VObject l' aps) k = false ->
      _assertEquals (VObject l (pre ++ (k, e) :: post)) (VObject l' aps) =
      Throw (k ++ " but was not found"))
  /\ _assertEquals complexObject1 complexObject3 =
     Throw "propB.propC but was not found".
Proof.
  split; [|vm_compute; reflexivity].
  intros l l' pre post aps k e Hl He Ha Hpre Hk.
  rewrite _assertEquals_objects by assumption.
  rewrite (each_expected_key_missing _assertEquals
             (VObject l (pre ++ (k, e) :: post)) (VObject l' aps) He Ha
             pre post k e (own_entries_present l _) Hpre).
  - reflexivity.
  - apply has_own_key_get, Hk.
Qed.

Lemma first_missing_key_of_plain_records_witness :
  let actual := VObject 2 [("a", VNumber 1)] in
  ((1 <> 2)%positive
   /\ lookup "hasOwnProperty"
        ([("a", VNumber 1)] ++ ("b", VNumber nan) :: [("c", VNull)])%list
      = None
   /\ lookup "hasOwnProperty" [("a", VNumber 1)] = None
   /\ Forall (matched _assertEquals actual) [("a", VNumber 1)]
   /\ has_own_key actual "b" = false)
  /\ _assertEquals
       (VObject 1 [("a", VNumber 1); ("b", VNumber nan); ("c", VNull)])
       actual =
     Throw "b but was not found".
Proof.
  intros actual.
  assert (H1 : (1 <> 2)%positive) by discriminate.
  assert (H2 : Forall (matched _assertEquals actual) [("a", VNumber 1)]).
  { constructor; [|constructor]. exists (VNumber 1). split; reflexivity. }
  split; [split; [exact H1|repeat split; try reflexivity; exact H2]|].
  exact (proj1 first_missing_key_of_plain_records 1%positive 2%positive
           [("a", VNumber 1)] [("c", VNull)] [("a", VNumber 1)]
           "b" (VNumber nan) H1 eq_refl eq_refl H2 eq_refl).
Defined.

(** X12. Between two distinct records neither of which has an own key named
    [hasOwnProperty], the keys of the actual record are scanned only once
    every key of the expected record has been found in it with an equal
    value: if some expected key is missing or differs, the outcome is the
    failure of the loop over the expected keys; if none is, the outcome is
    the Extra Key message for the first key of the actual record that the
    expected record lacks.  So [complexObject3] against [complexObject1],
    which has one key more, names that key. *)
Theorem extra_key_of_plain_records :
  (forall (l l' : address) (eps aps : list (string * Value)),
      l <> l' ->
      lookup "hasOwnProperty" eps = None ->
      lookup "hasOwnProperty" aps = None ->
      ~ Forall (matched _assertEquals (VObject l' aps)) eps ->
      exists m,
        each_expected_key _assertEquals eps (VObject l eps) (VObject l' aps)
        = Throw m
        /\ _assertEquals (VObject l eps) (VObject l' aps) = Throw m)
  /\ (forall (l l' : address) (eps aps : list (string * Value))
             (pre post : list string) (k : string),
         l <> l' ->
         lookup "hasOwnProperty" eps = None ->
         lookup "hasOwnProperty" aps = None ->
         Forall (matched _assertEquals (VObject l' aps)) eps ->
         keys (VObject l' aps) = (pre ++ k :: post)%list ->
         Forall (fun k' => has_own_key (VObject l eps) k' = true) pre ->
         has_own_key (VObject l eps) k = false ->
         _assertEquals (VObject l eps) (VObject l' aps) =
         Throw (k ++ " to be missing but was found"))
  /\ _assertEquals complexObject3 complexObject1 =
     Throw "propB.propC to be missing but was found".
Proof.
  split; [|split; [|vm_compute; reflexivity]].
  - intros l l' eps aps Hl He Ha Hnot.
    rewrite _assertEquals_objects by assumption.
    destruct (each_expected_key _assertEquals eps (VObject l eps)
                (VObject l' aps)) as [|m] eqn:E.
    + apply (_assertEquals_plain_objects l l' eps aps Hl He Ha) in E.
      contradiction.
    + exists m. split; reflexivity.
  - intros l l' eps aps pre post k Hl He Ha Hall Hkeys Hpre Hk.
    rewrite _assertEquals_objects by assumption.
    apply (_assertEquals_plain_objects l l' eps aps Hl He Ha) in Hall.
    rewrite Hall. simpl in Hkeys.
    pose proof (own_keys_present l' aps) as Hown.
    rewrite Hkeys in *.
    apply each_actual_key_first_extra; assumption.
Qed.

Lemma extra_key_of_plain_records_witness :
  let expected := VObject 1 [("a", VNumber 1)] in
  let actual := VObject 2 [("a", VNumber 1); ("b", VNumber 2)] in
  ((1 <> 2)%positive
   /\ lookup "hasOwnProperty" [("a", VNumber 1)] = None
   /\ lookup "hasOwnProperty" [("a", VNumber 1); ("b", VNumber 2)] = None
   /\ Forall (matched _assertEquals actual) [("a", VNumber 1)]
   /\ keys actual = (["a"] ++ "b" :: [])%list
   /\ Forall (fun k' => has_own_key expected k' = true) ["a"]
   /\ has_own_key expected "b" = false)
  /\ _assertEquals expected actual = Throw "b to be missing but was found".
Proof.
  intros expected actual.
  assert (H1 : (1 <> 2)%positive) by discriminate.
  assert (H2 : Forall (matched _assertEquals actual) [("a", VNumber 1)]).
  { constructor; [|constructor]. exists (VNumber 1). split; reflexivity. }
  assert (H3 : Forall (fun k' => has_own_key expected k' = true) ["a"]).
  { constructor; [reflexivity|constructor]. }
  split; [split; [exact H1|repeat split; try reflexivity; assumption]|].
  exact (proj1 (proj2 extra_key_of_plain_records) 1%positive 2%positive
           [("a", VNumber 1)] [("a", VNumber 1); ("b", VNumber 2)]
           ["a"] [] "b" H1 eq_refl eq_refl H2 eq_refl H3 eq_refl).
Defined.

(** X13. Two distinct records of which one has an own key named
    [hasOwnProperty] never compare equal, whatever they hold, be they copies
    of each other: the comparison throws the message of the TypeError,
    naming [expected] if the expected record has such a key, and [actual]
    if only the actual record has. *)
Theorem hidden_method_is_what_is_reported :
  forall (l l' : address) (eps aps : list (string * Value)),
    l <> l' ->
    (lookup "hasOwnProperty" eps <> None ->
     _assertEquals (VObject l eps) (VObject l' aps) =
     Throw "expected.hasOwnProperty is not a function")
    /\ (lookup "hasOwnProperty" eps = None ->
        lookup "hasOwnProperty" aps <> None ->
        _assertEquals (VObject l eps) (VObject l' aps) =
        Throw "actual.hasOwnProperty is not a function").
Proof.
  intros l l' eps aps Hl. split.
  - apply _assertEquals_hidden_in_expected, Hl.
  - apply _assertEquals_hidden_in_actual, Hl.
Qed.

Lemma hidden_method_is_what_is_reported_witness :
  ((1 <> 2)%positive
   /\ lookup "hasOwnProperty" [("hasOwnProperty", VNumber 1)] <> None)
  /\ _assertEquals (VObject 1 [("hasOwnProperty", VNumber 1)])
                   (VObject 2 [("hasOwnProperty", VNumber 1)]) =
     Throw "expected.hasOwnProperty is not a function".
Proof.
  assert (H1 : (1 <> 2)%positive) by discriminate.
  assert (H2 : lookup "hasOwnProperty" [("hasOwnProperty", VNumber 1)]
               <> None) by discriminate.
  split; [split; assumption|].
  exact (proj1 (hidden_method_is_what_is_reported 1%positive 2%positive
                  [("hasOwnProperty", VNumber 1)]
                  [("hasOwnProperty", VNumber 1)] H1) H2).
Defined.

(** ** The assertion and the test runner *)

(** C9. [runTest] always returns.  When the comparison throws a message [m],
    the list of failures gains exactly one string at its end, the label
    followed by [ Expected ] and [m], which is the message [assertEquals]
    throws; when the comparison returns, [assertEquals] returns and the list
    is unchanged. *)
Theorem runTest_records_the_failure :
  forall (label : string) (sink : list string) (expected actual : Value),
    fst (runTest label sink expected actual) = Return
    /\ (forall m,
           _assertEquals expected actual = Throw m ->
           assertEquals label expected actual =
           Throw (label ++ " Expected " ++ m)
           /\ snd (runTest label sink expected actual) =
              (sink ++ [(label ++ " Expected " ++ m)%string])%list)
    /\ (_assertEquals expected actual = Return ->
        assertEquals label expected actual = Return
        /\ snd (runTest label sink expected actual) = sink).
Proof.
  intros label sink expected actual.
  unfold runTest, assertEquals.
  destruct (_assertEquals expected actual) as [|m0]; simpl.
  - repeat split; intros; discriminate.
  - split; [reflexivity|]. split.
    + intros m Hm. injection Hm as <-. split; reflexivity.
    + discriminate.
Qed.

Lemma runTest_records_the_failure_witness :
  _assertEquals (VString "abcdef") (VString "abc") =
  Throw (value_mismatch "abcdef" "abc")
  /\ snd (runTest "Test 02: " ["earlier"] (VString "abcdef") (VString "abc")) =
     ["earlier"; "Test 02:  Expected " ++ value_mismatch "abcdef" "abc"].
Proof.
  split; [reflexivity|].
  exact (proj2 (proj1 (proj2 (runTest_records_the_failure
                  "Test 02: " ["earlier"] (VString "abcdef") (VString "abc")))
                  (value_mismatch "abcdef" "abc") eq_refl)).
Defined.


(** ** The dispatch of [_assertEquals] and the loop over indices, read backwards *)

Lemma Shape_eq_dec (s t : Shape) : {s = t} + {s <> t}.
Proof. decide equality. Qed.

Lemma _assertEquals_shapes_differ (expected actual : Value) :
  classify expected <> classify actual ->
  _assertEquals expected actual =
  Throw ("type " ++ shape_name (classify expected)
         ++ " but found type " ++ shape_name (classify actual)).
Proof.
  intros H. destruct expected, actual; simpl in H; try congruence; reflexivity.
Qed.

Lemma _assertEquals_primitives (expected actual : Value) :
  isPrimitive expected = true ->
  classify expected = classify actual ->
  strict_equals expected actual = false ->
  _assertEquals expected actual =
  Throw (value_mismatch (ToString expected) (ToString actual)).
Proof.
  intros Hp Hc Hne.
  destruct expected; try discriminate Hp;
    destruct actual; try discriminate Hc;
    cbn [strict_equals] in Hne;
    cbn [_assertEquals strict_equals typeof isPrimitive]; rewrite Hne;
    reflexivity.
Qed.

(** The five ways a call of [_assertEquals] goes. *)
Lemma _assertEquals_dispatch (expected actual : Value) :
  strict_equals expected actual = true
  \/ classify expected <> classify actual
  \/ (isPrimitive expected = true
      /\ classify expected = classify actual
      /\ strict_equals expected actual = false)
  \/ (exists l l' es acts,
         expected = VArray l es /\ actual = VArray l' acts /\ l <> l')
  \/ (exists l l' eps aps,
         expected = VObject l eps /\ actual = VObject l' aps /\ l <> l').
Proof.
  destruct (strict_equals expected actual) eqn:E; [left; reflexivity|].
  right.
  destruct (Shape_eq_dec (classify expected) (classify actual)) as [Hc|Hc];
    [|left; exact Hc].
  right.
  destruct expected, actual; try discriminate Hc; try discriminate E.
  - left. repeat split; assumption.
  - left. repeat split; assumption.
  - left. repeat split; assumption.
  - right. left. simpl in E. apply Pos.eqb_neq in E. eauto 8.
  - right. right. simpl in E. apply Pos.eqb_neq in E. eauto 8.
Qed.

Section LoopsBackwards.

Variable rec : Value -> Value -> Completion.

Lemma each_index_return (i : nat) (es acts : list Value) :
  List.length es = List.length acts ->
  each_index rec i es acts = Return ->
  Forall2 (accepted rec) es acts.
Proof.
  revert i acts. induction es as [|e es IH]; intros i [|a acts] Hlen H;
    try discriminate Hlen.
  - constructor.
  - simpl in H. destruct (rec e a) eqn:E; [|discriminate H].
    constructor; [exact E|]. apply (IH (S i)); [|exact H].
    simpl in Hlen. lia.
Qed.

Lemma each_index_throw (i : nat) (es acts : list Value) (m : string) :
  each_index rec i es acts = Throw m ->
  exists j e a m',
    nth_error es j = Some e /\ nth_error acts j = Some a
    /\ rec e a = Throw m'
    /\ m = "[" ++ string_of_nat (i + j) ++ "]" ++ divider e ++ m'.
Proof.
  revert i acts. induction es as [|e es IH]; intros i [|a acts] H;
    try discriminate H.
  simpl in H. destruct (rec e a) as [|m0] eqn:E.
  - destruct (IH (S i) acts H) as (j & e' & a' & m' & He & Ha & Hr & Hm).
    exists (S j), e', a', m'. repeat split; try assumption.
    rewrite Nat.add_succ_r. exact Hm.
  - injection H as <-. exists 0, e, a, m0.
    rewrite Nat.add_0_r. repeat split. exact E.
Qed.

End LoopsBackwards.

(** ** The equal verdict *)

Section Lifting.

Variables R S : Value -> Value -> Prop.

Lemma lift_elements (es acts : list Value) :
  Forall (fun e => forall a, R e a -> S e a) es ->
  Forall2 R es acts -> Forall2 S es acts.
Proof.
  intros IH H. induction H as [|e a es acts Hea _ IH2].
  - constructor.
  - inversion IH as [|? ? He Hes]; subst.
    constructor; [apply He, Hea|apply IH2, Hes].
Qed.

Lemma lift_properties (eps aps : list (string * Value)) :
  Forall (fun p => forall a, R (snd p) a -> S (snd p) a) eps ->
  Forall (fun p => exists a, lookup (fst p) aps = Some a /\ R (snd p) a) eps ->
  Forall (fun p => exists a, lookup (fst p) aps = Some a /\ S (snd p) a) eps.
Proof.
  intros IH H. induction H as [|p eps [a [Hget Ha]] _ IH2].
  - constructor.
  - inversion IH as [|? ? He Hes]; subst.
    constructor; [|apply IH2, Hes].
    exists a. split; [exact Hget|apply He, Ha].
Qed.

End Lifting.

(** Two distinct records compare equal exactly when the expected one has no
    own key named [hasOwnProperty], each of its keys is found in the actual
    one with an equal value, and each key of the actual one is a key of
    it. *)
Lemma _assertEquals_records_equal
      (l l' : address) (eps aps : list (string * Value)) :
  l <> l' ->
  (_assertEquals (VObject l eps) (VObject l' aps) = Return <->
   lookup "hasOwnProperty" eps = None
   /\ Forall (matched _assertEquals (VObject l' aps)) eps
   /\ Forall (fun k => has_own_key (VObject l eps) k = true) (map fst aps)).
Proof.
  intros Hl. split.
  - intros H.
    destruct (lookup "hasOwnProperty" eps) as [v|] eqn:He.
    { rewrite _assertEquals_hidden_in_expected in H;
        [discriminate H|exact Hl|congruence]. }
    destruct (lookup "hasOwnProperty" aps) as [v|] eqn:Ha.
    { rewrite _assertEquals_hidden_in_actual in H;
        [discriminate H|exact Hl|exact He|congruence]. }
    destruct (_assertEquals_plain_objects l l' eps aps Hl He Ha)
      as [Hfirst Hsecond].
    rewrite _assertEquals_objects in H by assumption.
    destruct (each_expected_key _assertEquals eps (VObject l eps)
                (VObject l' aps)) eqn:E; [|discriminate H].
    split; [reflexivity|]. split; [apply Hfirst; reflexivity|].
    apply Hsecond, H.
  - intros (He & Hm & Hk).
    pose proof (lacking_key_of_both l eps aps _ He Hk) as Ha.
    destruct (_assertEquals_plain_objects l l' eps aps Hl He Ha)
      as [Hfirst Hsecond].
    rewrite _assertEquals_objects by assumption.
    rewrite (proj1 Hfirst Hm). apply Hsecond, Hk.
Qed.

Lemma agree_complete (expected : Value) :
  forall actual, _assertEquals expected actual = Return -> agree expected actual.
Proof.
  induction expected as [ | s | n | b | l es IH | l eps IH ]
    using Value_nested_ind; intros actual H;
    match type of H with
    | _assertEquals ?e _ = _ =>
        destruct (_assertEquals_dispatch e actual)
          as [E|[Hc|[(Hp & Hc & E)
                    |[(l0 & l' & es0 & acts & He & -> & Hl)
                     |(l0 & l' & eps0 & aps & He & -> & Hl)]]]]
    end;
    try (apply agree_same; exact E);
    try (rewrite (_assertEquals_shapes_differ _ _ Hc) in H; discriminate H);
    try (rewrite (_assertEquals_primitives _ _ Hp Hc E) in H; discriminate H);
    try discriminate He.
  - injection He as <- <-.
    rewrite _assertEquals_arrays in H by assumption.
    destruct (List.length es =? List.length acts)%nat eqn:Hlen;
      cbn [negb] in H; [|discriminate H].
    apply Nat.eqb_eq in Hlen.
    apply agree_array.
    apply (lift_elements (accepted _assertEquals) agree); [exact IH|].
    apply (each_index_return _assertEquals 0); assumption.
  - injection He as <- <-.
    apply (_assertEquals_records_equal l l' eps aps Hl) in H.
    destruct H as (Hplain & Hm & Hk).
    apply agree_object; [exact Hplain| |exact Hk].
    apply (lift_properties (accepted _assertEquals) agree); [exact IH|].
    exact Hm.
Qed.

Lemma agree_sound (expected : Value) :
  forall actual, agree expected actual -> _assertEquals expected actual = Return.
Proof.
  induction expected as [ | s | n | b | l es IH | l eps IH ]
    using Value_nested_ind; intros actual H; inversion H; subst;
    try (apply _assertEquals_identical; assumption).
  - destruct (Pos.eq_dec l l') as [->|Hl].
    + apply _assertEquals_identical. apply Pos.eqb_refl.
    + rewrite _assertEquals_arrays by assumption.
      assert (Hacc : Forall2 (accepted _assertEquals) es acts)
        by (apply (lift_elements agree (accepted _assertEquals)); assumption).
      rewrite (Forall2_length Hacc), Nat.eqb_refl. cbn [negb].
      apply each_index_all, Hacc.
  - destruct (Pos.eq_dec l l') as [->|Hl].
    + apply _assertEquals_identical. apply Pos.eqb_refl.
    + apply (_assertEquals_records_equal l l' eps aps Hl).
      split; [assumption|]. split; [|assumption].
      apply (lift_properties agree (accepted _assertEquals)); assumption.
Qed.

(** X1. The verdict is equal exactly when the two values agree: they are
    [===], or arrays of one length whose elements agree in turn, or records,
    with no own key named [hasOwnProperty], where every key of either is a
    key of the other and the values under it agree.  Nothing else is
    accepted, and nothing of this kind is refused. *)
Theorem equal_verdict_characterised :
  forall expected actual : Value,
    _assertEquals expected actual = Return <-> agree expected actual.
Proof.
  intros expected actual. split.
  - apply agree_complete.
  - apply agree_sound.
Qed.

(** X2. A copy compares equal: two values of the same structure, with no NaN
    in them and no key named [hasOwnProperty], wherever their objects live
    and in whatever order the records list their keys. *)
Theorem copies_compare_equal :
  forall expected actual : Value,
    alike expected actual -> _assertEquals expected actual = Return.
Proof.
  intros expected actual H. revert actual H. apply alike_compare_equal.
Qed.

Lemma copies_compare_equal_witness :
  alike (VObject 1 [("a", VArray 2 [VNull; VBoolean true]); ("b", VNumber 0)])
        (VObject 3 [("b", VNumber neg_zero);
                    ("a", VArray 4 [VNull; VBoolean true])])
  /\ _assertEquals
       (VObject 1 [("a", VArray 2 [VNull; VBoolean true]); ("b", VNumber 0)])
       (VObject 3 [("b", VNumber neg_zero);
                   ("a", VArray 4 [VNull; VBoolean true])]) = Return.
Proof.
  assert (H : alike
                (VObject 1 [("a", VArray 2 [VNull; VBoolean true]);
                            ("b", VNumber 0)])
                (VObject 3 [("b", VNumber neg_zero);
                            ("a", VArray 4 [VNull; VBoolean true])])).
  { apply alike_object.
    - reflexivity.
    - constructor.
      + exists (VArray 4 [VNull; VBoolean true]). split; [reflexivity|].
        apply alike_array. repeat constructor.
      + constructor; [|constructor].
        exists (VNumber neg_zero). split; [reflexivity|].
        apply alike_number. reflexivity.
    - repeat constructor. }
  split; [exact H|].
  exact (copies_compare_equal _ _ H).
Defined.

(** ** Symmetry of the verdict *)

Lemma SFeqb_sym (x y : spec_float) : SFeqb x y = SFeqb y x.
Proof.
  unfold SFeqb, SFcompare.
  destruct x as [s1|s1| |s1 m1 e1], y as [s2|s2| |s2 m2 e2];
    try destruct s1; try destruct s2; try reflexivity;
    rewrite (Z.compare_antisym e1 e2); destruct (e1 ?= e2)%Z; simpl;
    try reflexivity;
    change (Pos.compare_cont Eq m2 m1) with (m2 ?= m1)%positive;
    change (Pos.compare_cont Eq m1 m2) with (m1 ?= m2)%positive;
    rewrite (Pos.compare_antisym m1 m2); destruct (m1 ?= m2)%positive;
    reflexivity.
Qed.

Lemma strict_equals_sym (a b : Value) : strict_equals a b = strict_equals b a.
Proof.
  destruct a, b; simpl; try reflexivity.
  - apply String.eqb_sym.
  - rewrite !FloatAxioms.eqb_spec. apply SFeqb_sym.
  - destruct b, b0; reflexivity.
  - apply Pos.eqb_sym.
  - apply Pos.eqb_sym.
Qed.

Lemma agree_elements_sym (es acts : list Value) :
  Forall (fun e => forall a, unique_keys a -> agree e a -> agree a e) es ->
  Forall unique_keys acts ->
  Forall2 agree es acts -> Forall2 agree acts es.
Proof.
  intros IH Hu H. induction H as [|e a es acts Hea _ IH2].
  - constructor.
  - inversion IH as [|? ? He Hes]; subst.
    inversion Hu as [|? ? Ha Hacts]; subst.
    constructor; [apply He; assumption|apply IH2; assumption].
Qed.

Lemma agree_sym (expected : Value) :
  forall actual,
    unique_keys actual -> agree expected actual -> agree actual expected.
Proof.
  induction expected as [ | s | n | b | l es IH | l eps IH ]
    using Value_nested_ind; intros actual Hu H; inversion H; subst;
    try (apply agree_same; rewrite strict_equals_sym; assumption).
  - inversion Hu; subst.
    apply agree_array. apply agree_elements_sym; assumption.
  - inversion Hu as [ | | | | |? ? Hnd Hsub]; subst.
    match goal with
      H0 : lookup _ eps = None, H1 : Forall _ eps,
      H2 : Forall _ (map fst aps) |- _ =>
        rename H0 into Hplain; rename H1 into Heps; rename H2 into Haps
    end.
    pose proof (lacking_key_of_both l eps aps _ Hplain Haps) as Hplain'.
    rewrite Forall_forall in Heps, Haps, IH, Hsub.
    apply agree_object; [exact Hplain'| |]; apply Forall_forall.
    + intros [k av] Hin. simpl.
      assert (Hk : has_own_key (VObject l eps) k = true).
      { apply Haps. apply (in_map fst) in Hin. exact Hin. }
      unfold has_own_key in Hk. simpl in Hk.
      destruct (lookup k eps) as [ev|] eqn:Hev; [|discriminate Hk].
      exists ev. split; [reflexivity|].
      apply lookup_In in Hev.
      destruct (Heps (k, ev) Hev) as [a' [Ha' Hag]]. simpl in Ha', Hag.
      rewrite (lookup_own_entry aps k av Hnd Hin) in Ha'.
      injection Ha' as <-.
      apply (IH (k, ev) Hev); [|exact Hag].
      apply (Hsub (k, av) Hin).
    + intros k Hin. apply in_map_iff in Hin.
      destruct Hin as [[k' ev] [<- Hin]]. simpl.
      destruct (Heps (k', ev) Hin) as [a' [Ha' _]]. simpl in Ha'.
      unfold has_own_key. simpl. rewrite Ha'. reflexivity.
Qed.

(** X3. The verdict does not depend on which value is called expected: for
    two values whose records list no key twice, comparing one against the
    other is equal exactly when comparing the other against the one is. *)
Theorem equal_verdict_symmetric :
  forall v w : Value,
    unique_keys v -> unique_keys w ->
    (_assertEquals v w = Return <-> _assertEquals w v = Return).
Proof.
  intros v w Hv Hw. split; intros H.
  - apply agree_sound, agree_sym; [exact Hw|]. apply agree_complete, H.
  - apply agree_sound, agree_sym; [exact Hv|]. apply agree_complete, H.
Qed.

Ltac unique_keys_of_literal :=
  repeat first
    [ apply unique_keys_object | apply unique_keys_array
    | apply unique_keys_null | apply unique_keys_string
    | apply unique_keys_number | apply unique_keys_boolean
    | apply Forall_cons | apply Forall_nil
    | apply NoDup_cons | apply NoDup_nil
    | progress cbn [map fst snd]
    | (simpl; intuition discriminate) ].

Lemma equal_verdict_symmetric_witness :
  (unique_keys complexObject1 /\ unique_keys complexObject1Copy)
  /\ (_assertEquals complexObject1 complexObject1Copy = Return
      <-> _assertEquals complexObject1Copy complexObject1 = Return).
Proof.
  assert (H1 : unique_keys complexObject1)
    by (unfold complexObject1; unique_keys_of_literal).
  assert (H2 : unique_keys complexObject1Copy)
    by (unfold complexObject1Copy; unique_keys_of_literal).
  split; [split; assumption|].
  exact (equal_verdict_symmetric complexObject1 complexObject1Copy H1 H2).
Defined.

(** ** The order of the keys *)

Lemma lookup_permutation (ps ps' : list (string * Value)) (k : string) :
  NoDup (map fst ps) -> Permutation ps ps' -> lookup k ps = lookup k ps'.
Proof.
  intros Hnd Hperm.
  assert (Hnd' : NoDup (map fst ps')).
  { apply (Permutation_NoDup (l := map fst ps)); [|exact Hnd].
    apply Permutation_map, Hperm. }
  destruct (lookup k ps) as [v|] eqn:E.
  - symmetry. apply lookup_own_entry; [exact Hnd'|].
    apply (Permutation_in _ Hperm). apply lookup_In, E.
  - symmetry. apply lookup_None. intros Hin.
    apply lookup_None in E. apply E.
    apply (Permutation_in (l := map fst ps')); [|exact Hin].
    apply Permutation_sym, Permutation_map, Hperm.
Qed.

Lemma lookup_None_permutation (ps ps' : list (string * Value)) (k : string) :
  Permutation ps ps' -> lookup k ps = None -> lookup k ps' = None.
Proof.
  intros Hperm H. apply lookup_None. intros Hin.
  apply lookup_None in H. apply H.
  apply (Permutation_in (l := map fst ps')); [|exact Hin].
  apply Permutation_sym, Permutation_map, Hperm.
Qed.

Lemma has_own_key_permutation (l l' : address)
      (ps ps' : list (string * Value)) (k : string) :
  Permutation ps ps' ->
  has_own_key (VObject l ps) k = has_own_key (VObject l' ps') k.
Proof.
  intros Hperm.
  destruct (has_own_key (VObject l ps) k) eqn:E; symmetry.
  - apply has_own_key_In. apply has_own_key_In in E.
    apply (Permutation_in (l := map fst ps)); [|exact E].
    apply Permutation_map, Hperm.
  - apply has_own_key_get. apply has_own_key_get in E. simpl in *.
    apply (lookup_None_permutation ps ps'); assumption.
Qed.

Lemma each_expected_key_same_reads (rec : Value -> Value -> Completion)
      (own : list (string * Value)) (expected actual actual' : Value) :
  (forall k, get actual k = get actual' k) ->
  each_expected_key rec own expected actual =
  each_expected_key rec own expected actual'.
Proof.
  intros Hget. induction own as [|[k e] own IH]; cbn [each_expected_key];
    [reflexivity|].
  rewrite IH. unfold hasOwnProperty, has_own_key. rewrite <- !Hget.
  reflexivity.
Qed.

Lemma records_equal_reordered
      (l m l' m' : address) (eps eps' aps aps' : list (string * Value)) :
  Permutation eps eps' -> Permutation aps aps' ->
  NoDup (map fst aps) ->
  l <> m ->
  _assertEquals (VObject l eps) (VObject m aps) = Return ->
  _assertEquals (VObject l' eps') (VObject m' aps') = Return.
Proof.
  intros He Ha Hnd Hlm H.
  apply (_assertEquals_records_equal l m eps aps Hlm) in H.
  destruct H as (Hplain & Hm & Hk).
  destruct (Pos.eq_dec l' m') as [->|Hlm'].
  { apply _assertEquals_identical. apply Pos.eqb_refl. }
  apply (_assertEquals_records_equal l' m' eps' aps' Hlm').
  split; [apply (lookup_None_permutation eps eps'); assumption|]. split.
  - apply (Permutation_Forall (x := eps)); [exact He|].
    apply (Forall_impl _ (P := matched _assertEquals (VObject m aps)));
      [|exact Hm].
    intros p [a [Hget Hrec]]. exists a. split; [|exact Hrec].
    simpl in *. rewrite <- Hget. symmetry.
    apply lookup_permutation; assumption.
  - apply (Permutation_Forall (x := map fst aps));
      [apply Permutation_map, Ha|].
    apply Forall_forall. intros k Hin.
    rewrite <- (has_own_key_permutation l l' eps eps' k He).
    rewrite Forall_forall in Hk. apply Hk, Hin.
Qed.

(** X4. The order in which two distinct records list their keys has no
    effect on the verdict: reordering the keys of either, the comparison is
    equal after exactly when it was equal before. *)
Theorem key_order_does_not_change_the_verdict :
  forall (l m l' m' : address) (eps eps' aps aps' : list (string * Value)),
    Permutation eps eps' -> Permutation aps aps' ->
    NoDup (map fst aps) ->
    l <> m -> l' <> m' ->
    (_assertEquals (VObject l eps) (VObject m aps) = Return
     <-> _assertEquals (VObject l' eps') (VObject m' aps') = Return).
Proof.
  intros l m l' m' eps eps' aps aps' He Ha Hnd Hlm Hlm'. split.
  - apply records_equal_reordered; assumption.
  - apply records_equal_reordered; try assumption.
    + apply Permutation_sym, He.
    + apply Permutation_sym, Ha.
    + apply (Permutation_NoDup (l := map fst aps)); [|exact Hnd].
      apply Permutation_map, Ha.
Qed.

Lemma key_order_does_not_change_the_verdict_witness :
  let eps := [("x", VNumber 1); ("y", VString "s")] in
  let aps := [("y", VString "s"); ("x", VNumber 1)] in
  (Permutation eps aps /\ Permutation aps eps /\ NoDup (map fst aps)
   /\ (1 <> 2)%positive /\ (3 <> 4)%positive)
  /\ (_assertEquals (VObject 1 eps) (VObject 2 aps) = Return
      <-> _assertEquals (VObject 3 aps) (VObject 4 eps) = Return).
Proof.
  intros eps aps.
  assert (H1 : Permutation eps aps) by apply perm_swap.
  assert (H2 : Permutation aps eps) by apply perm_swap.
  assert (H3 : NoDup (map fst aps)).
  { repeat constructor; simpl; intuition discriminate. }
  assert (H4 : (1 <> 2)%positive) by discriminate.
  assert (H5 : (3 <> 4)%positive) by discriminate.
  split; [repeat split; assumption|].
  exact (key_order_does_not_change_the_verdict
           1%positive 2%positive 3%positive 4%positive
           eps aps aps eps H1 H2 H3 H4 H5).
Defined.

(** X5. When the actual record has no key that the expected record lacks,
    the order of its keys has no effect at all: the outcome, verdict and
    message, is the same for every order.  (The order decides only which
    surplus key an Extra Key message names.) *)
Theorem actual_key_order_only_picks_the_extra_key :
  forall (l m m' : address) (eps aps aps' : list (string * Value)),
    Permutation aps aps' ->
    NoDup (map fst aps) ->
    l <> m -> l <> m' ->
    Forall (fun k => has_own_key (VObject l eps) k = true) (map fst aps) ->
    _assertEquals (VObject l eps) (VObject m aps) =
    _assertEquals (VObject l eps) (VObject m' aps').
Proof.
  intros l m m' eps aps aps' Ha Hnd Hlm Hlm' Hkeys.
  destruct (lookup "hasOwnProperty" eps) as [v|] eqn:Hplain.
  { rewrite !_assertEquals_hidden_in_expected;
      [reflexivity| | | |]; try assumption; congruence. }
  pose proof (lacking_key_of_both l eps aps _ Hplain Hkeys) as Hplain'.
  pose proof (lookup_None_permutation aps aps' _ Ha Hplain') as Hplain''.
  assert (Hkeys' : Forall (fun k => has_own_key (VObject l eps) k = true)
                          (map fst aps')).
  { apply (Permutation_Forall (x := map fst aps));
      [apply Permutation_map, Ha|exact Hkeys]. }
  rewrite !_assertEquals_objects by assumption.
  rewrite (each_expected_key_same_reads _assertEquals eps (VObject l eps)
             (VObject m' aps') (VObject m aps)).
  - destruct (each_expected_key _assertEquals eps (VObject l eps)
                (VObject m aps)); [|reflexivity].
    rewrite (proj1 (proj2 (_assertEquals_plain_objects l m eps aps
                             Hlm Hplain Hplain')) Hkeys).
    rewrite (proj1 (proj2 (_assertEquals_plain_objects l m' eps aps'
                             Hlm' Hplain Hplain'')) Hkeys').
    reflexivity.
  - intros k. simpl. symmetry. apply lookup_permutation; assumption.
Qed.

Lemma actual_key_order_only_picks_the_extra_key_witness :
  let eps := [("x", VNumber 1); ("y", VString "s"); ("z", VNull)] in
  let aps := [("x", VNumber 1); ("y", VString "t")] in
  let aps' := [("y", VString "t"); ("x", VNumber 1)] in
  (Permutation aps aps' /\ NoDup (map fst aps)
   /\ (1 <> 2)%positive /\ (1 <> 3)%positive
   /\ Forall (fun k => has_own_key (VObject 1 eps) k = true) (map fst aps))
  /\ _assertEquals (VObject 1 eps) (VObject 2 aps) =
     _assertEquals (VObject 1 eps) (VObject 3 aps').
Proof.
  intros eps aps aps'.
  assert (H1 : Permutation aps aps') by apply perm_swap.
  assert (H2 : NoDup (map fst aps)).
  { repeat constructor; simpl; intuition discriminate. }
  assert (H3 : (1 <> 2)%positive) by discriminate.
  assert (H4 : (1 <> 3)%positive) by discriminate.
  assert (H5 : Forall (fun k => has_own_key (VObject 1 eps) k = true)
                      (map fst aps)).
  { repeat constructor. }
  split; [repeat split; assumption|].
  exact (actual_key_order_only_picks_the_extra_key
           1%positive 2%positive 3%positive eps aps aps' H1 H2 H3 H4 H5).
Defined.

(** ** What a message reports, and what is detected *)

Lemma message_reports_finding (expected : Value) :
  forall actual m,
    _assertEquals expected actual = Throw m -> finding expected actual m.
Proof.
  induction expected as [ | s | n | b | l es IH | l eps IH ]
    using Value_nested_ind; intros actual m H;
    match type of H with
    | _assertEquals ?e _ = _ =>
        destruct (_assertEquals_dispatch e actual)
          as [E|[Hc|[(Hp & Hc & E)
                    |[(l0 & l' & es0 & acts & He & -> & Hl)
                     |(l0 & l' & eps0 & aps & He & -> & Hl)]]]]
    end;
    try (rewrite (_assertEquals_identical _ _ E) in H; discriminate H);
    try (rewrite (_assertEquals_shapes_differ _ _ Hc) in H;
         injection H as <-; apply type_finding; exact Hc);
    try (rewrite (_assertEquals_primitives _ _ Hp Hc E) in H;
         injection H as <-; apply value_finding; assumption);
    try discriminate He.
  - injection He as <- <-.
    rewrite _assertEquals_arrays in H by assumption.
    destruct (List.length es =? List.length acts)%nat eqn:Hlen;
      cbn [negb] in H.
    + apply Nat.eqb_eq in Hlen.
      apply each_index_throw in H.
      destruct H as (j & e & a & m' & Hes & Hacts & Hr & ->).
      apply finding_at_index with (a := a); try assumption.
      rewrite Forall_forall in IH.
      apply (IH e); [|exact Hr]. apply (nth_error_In es j), Hes.
    + apply Nat.eqb_neq in Hlen. injection H as <-.
      apply length_finding; assumption.
  - injection He as <- <-.
    destruct (lookup "hasOwnProperty" eps) as [v|] eqn:Hplain.
    { rewrite _assertEquals_hidden_in_expected in H;
        [|exact Hl|congruence].
      injection H as <-. apply hidden_in_expected_finding; congruence. }
    destruct (lookup "hasOwnProperty" aps) as [v|] eqn:Hplain'.
    { rewrite _assertEquals_hidden_in_actual in H;
        [|exact Hl|exact Hplain|congruence].
      injection H as <-. apply hidden_in_actual_finding; congruence. }
    rewrite _assertEquals_objects in H by assumption.
    destruct (each_expected_key _assertEquals eps (VObject l eps)
                (VObject l' aps)) as [|m0] eqn:E1.
    + apply (each_actual_key_throw (VObject l eps) (VObject l' aps)
               Hplain Hplain' _ m (own_keys_present l' aps)) in H.
      destruct H as (k & Hin & Hk & ->).
      apply extra_key_finding; assumption.
    + injection H as <-.
      apply (each_expected_key_throw _assertEquals (VObject l eps)
               (VObject l' aps) Hplain Hplain' eps m0
               (own_entries_present l eps)) in E1.
      destruct E1 as [(k & Hin & Hnone & ->)
                     |(k & e & a & m' & Hin & Hsome & Hr & ->)].
      * apply missing_key_finding; try assumption.
        apply has_own_key_get, Hnone.
      * apply finding_at_key with (a := a); try assumption.
        rewrite Forall_forall in IH. apply (IH (k, e) Hin), Hr.
Qed.

Lemma agree_shape (v w : Value) : agree v w -> classify v = classify w.
Proof.
  intros H. inversion H; subst; try reflexivity.
  apply strict_equals_shape. assumption.
Qed.

Lemma agree_at_index (es acts : list Value) (i : nat) (e a : Value) :
  Forall2 agree es acts ->
  nth_error es i = Some e -> nth_error acts i = Some a -> agree e a.
Proof.
  intros H. revert i. induction H as [|x y es acts Hxy _ IH]; intros i He Ha.
  - destruct i; discriminate He.
  - destruct i as [|i]; simpl in He, Ha.
    + injection He as <-. injection Ha as <-. exact Hxy.
    + apply (IH i); assumption.
Qed.

Lemma finding_not_agree (expected actual : Value) (m : string) :
  finding expected actual m -> ~ agree expected actual.
Proof.
  intros H.
  induction H as [ e a Hc | e a Hp Hc E | l l' es acts Hl Hlen
                 | l l' eps aps Hl Hhid | l l' eps aps Hl Hplain Hhid
                 | l l' eps aps k Hl Hplain Hplain' Hin Hk
                 | l l' eps aps k Hl Hplain Hplain' Hin Hk
                 | l l' es acts i e a m Hl Hlen He Ha _ IH
                 | l l' eps aps k e a m Hl Hplain Hplain' Hin Hget _ IH ];
    intros Hag.
  - apply Hc, agree_shape, Hag.
  - inversion Hag; subst; try discriminate Hp. congruence.
  - inversion Hag; subst.
    + simpl in *. apply Hl, Pos.eqb_eq. assumption.
    + apply Hlen. apply (Forall2_length (R := agree)). assumption.
  - inversion Hag as [? ? Hs| |? ? ? ? Hno Heps Haps]; subst.
    + simpl in Hs. apply Hl, Pos.eqb_eq, Hs.
    + apply Hhid, Hno.
  - inversion Hag as [? ? Hs| |? ? ? ? Hno Heps Haps]; subst.
    + simpl in Hs. apply Hl, Pos.eqb_eq, Hs.
    + apply Hhid. apply (lacking_key_of_both l eps aps); assumption.
  - inversion Hag as [? ? Hs| |? ? ? ? Hno Heps Haps]; subst.
    + simpl in Hs. apply Hl, Pos.eqb_eq, Hs.
    + rewrite Forall_forall in Heps. apply in_map_iff in Hin.
      destruct Hin as [[k' e] [<- Hin]].
      destruct (Heps (k', e) Hin) as [a [Ha _]]. simpl in Ha.
      unfold has_own_key in Hk. simpl in Hk. rewrite Ha in Hk.
      discriminate Hk.
  - inversion Hag as [? ? Hs| |? ? ? ? Hno Heps Haps]; subst.
    + simpl in Hs. apply Hl, Pos.eqb_eq, Hs.
    + rewrite Forall_forall in Haps. rewrite (Haps k Hin) in Hk.
      discriminate Hk.
  - inversion Hag as [? ? Hs|? ? ? ? Hall|]; subst.
    + simpl in Hs. apply Hl, Pos.eqb_eq, Hs.
    + apply IH. apply (agree_at_index es acts i); assumption.
  - inversion Hag as [? ? Hs| |? ? ? ? Hno Heps Haps]; subst.
    + simpl in Hs. apply Hl, Pos.eqb_eq, Hs.
    + rewrite Forall_forall in Heps.
      destruct (Heps (k, e) Hin) as [a' [Ha' Hag']]. simpl in Ha', Hag'.
      rewrite Hget in Ha'. injection Ha' as <-. apply IH, Hag'.
Qed.

(** X6. Every message [_assertEquals] throws reports something that is
    there: a path of indices and keys, each segment followed by its divider,
    through distinct arrays of one length and distinct records with no own
    key named [hasOwnProperty], down to a pair of sub-values; and at that
    pair either one of the five kinds of discrepancy (shapes that differ,
    primitives that are not [===], lengths that differ, a key the actual
    record lacks, a key the expected record lacks) or a record whose own key
    [hasOwnProperty] makes the call of lines 91-112 throw: then the message
    is the one of the TypeError. *)
Theorem every_message_reports_a_finding :
  forall (expected actual : Value) (m : string),
    _assertEquals expected actual = Throw m -> finding expected actual m.
Proof.
  intros expected actual m. apply message_reports_finding.
Qed.

Lemma every_message_reports_a_finding_witness :
  _assertEquals complexObject1 complexObject2 =
  Throw ("propB.propA[1].propB " ++ value_mismatch "b" "c")
  /\ finding complexObject1 complexObject2
       ("propB.propA[1].propB " ++ value_mismatch "b" "c").
Proof.
  assert (H : _assertEquals complexObject1 complexObject2 =
              Throw ("propB.propA[1].propB " ++ value_mismatch "b" "c"))
    by (vm_compute; reflexivity).
  split; [exact H|].
  exact (every_message_reports_a_finding _ _ _ H).
Defined.

(** X7. Nothing of this goes unnoticed: if one of the five kinds of
    discrepancy, or a record with an own key named [hasOwnProperty], is there
    at the top or under any such path, the comparison throws. *)
Theorem every_finding_is_detected :
  forall (expected actual : Value) (m : string),
    finding expected actual m ->
    exists m', _assertEquals expected actual = Throw m'.
Proof.
  intros expected actual m H.
  destruct (_assertEquals expected actual) as [|m'] eqn:E.
  - exfalso. apply (finding_not_agree _ _ _ H). apply agree_complete, E.
  - exists m'. reflexivity.
Qed.

Lemma every_finding_is_detected_witness :
  let expected := VArray 1 [VNumber 1; VObject 2 [("k", VNull)]] in
  let actual := VArray 3 [VNumber 2; VObject 4 []] in
  finding expected actual ("[1]." ++ "k but was not found")
  /\ exists m', _assertEquals expected actual = Throw m'.
Proof.
  intros expected actual.
  assert (H : finding expected actual ("[1]." ++ "k but was not found")).
  { apply (finding_at_index 1%positive 3%positive _ _ 1
             (VObject 2 [("k", VNull)])
             (VObject 4 []) "k but was not found");
      try reflexivity; try discriminate.
    apply (missing_key_finding 2%positive 4%positive
             [("k", VNull)] [] "k");
      [discriminate|reflexivity|reflexivity|left; reflexivity|reflexivity]. }
  split; [exact H|].
  exact (every_finding_is_detected expected actual _ H).
Defined.

(** ** One key more *)

Lemma lookup_app_found (ps qs : list (string * Value)) (k : string)
      (v : Value) :
  lookup k ps = Some v -> lookup k (ps ++ qs)%list = Some v.
Proof.
  induction ps as [|[k' v'] ps IH]; simpl; intros H; [discriminate H|].
  destruct (String.eqb k k'); [exact H|apply IH, H].
Qed.

Lemma lookup_app_missing (ps qs : list (string * Value)) (k : string) :
  lookup k ps = None -> lookup k (ps ++ qs)%list = lookup k qs.
Proof.
  induction ps as [|[k' v'] ps IH]; simpl; intros H; [reflexivity|].
  destruct (String.eqb k k'); [discriminate H|apply IH, H].
Qed.

Lemma matched_after_append (l l' : address) (eps aps qs : list (string * Value)) :
  Forall (matched _assertEquals (VObject l aps)) eps ->
  Forall (matched _assertEquals (VObject l' (aps ++ qs)%list)) eps.
Proof.
  intros H. apply (Forall_impl _ (P := matched _assertEquals (VObject l aps)));
    [|exact H].
  intros p [a [Hget Hrec]]. exists a. split; [|exact Hrec].
  simpl in *. apply lookup_app_found, Hget.
Qed.

(** Records that compare equal have the same keys. *)
Lemma equal_records_same_keys (l m : address)
      (eps aps : list (string * Value)) (k : string) :
  Forall (matched _assertEquals (VObject m aps)) eps ->
  Forall (fun k' => has_own_key (VObject l eps) k' = true) (map fst aps) ->
  has_own_key (VObject l eps) k = has_own_key (VObject m aps) k.
Proof.
  intros E H. unfold has_own_key. simpl.
  rewrite Forall_forall in E, H.
  destruct (lookup k eps) as [e|] eqn:Ee, (lookup k aps) as [a|] eqn:Ea;
    try reflexivity; exfalso.
  - apply lookup_In in Ee. destruct (E (k, e) Ee) as [a [Ha _]].
    simpl in Ha. congruence.
  - apply lookup_In in Ea. apply (in_map fst) in Ea. simpl in Ea.
    specialize (H k Ea). unfold has_own_key in H. simpl in H.
    rewrite Ee in H. discriminate H.
Qed.

(** X8. Equality of records is strict about keys.  Take two distinct records
    that compare equal and a key neither has, added at the end of one of
    them with whatever value.  If the key is not [hasOwnProperty], the
    comparison throws the Extra Key message for it when the actual record
    got it, and the Missing Key message for it when the expected record got
    it.  If the key is [hasOwnProperty], the comparison throws the message
    of the TypeError instead, naming the record that got it. *)
Theorem one_more_key_is_reported :
  forall (l m : address) (eps aps : list (string * Value)) (k : string)
         (v : Value),
    l <> m ->
    _assertEquals (VObject l eps) (VObject m aps) = Return ->
    has_own_key (VObject m aps) k = false ->
    (k <> "hasOwnProperty" ->
     _assertEquals (VObject l eps) (VObject m (aps ++ [(k, v)])%list) =
     Throw (k ++ " to be missing but was found")
     /\ _assertEquals (VObject l (eps ++ [(k, v)])%list) (VObject m aps) =
        Throw (k ++ " but was not found"))
    /\ (k = "hasOwnProperty" ->
        _assertEquals (VObject l eps) (VObject m (aps ++ [(k, v)])%list) =
        Throw "actual.hasOwnProperty is not a function"
        /\ _assertEquals (VObject l (eps ++ [(k, v)])%list) (VObject m aps) =
           Throw "expected.hasOwnProperty is not a function").
Proof.
  intros l m eps aps k v Hl H Hk.
  apply (_assertEquals_records_equal l m eps aps Hl) in H.
  destruct H as (Hplain & Hm & Hkeys).
  pose proof (lacking_key_of_both l eps aps _ Hplain Hkeys) as Hplain'.
  assert (Hk' : has_own_key (VObject l eps) k = false).
  { rewrite (equal_records_same_keys l m eps aps k Hm Hkeys). exact Hk. }
  apply has_own_key_get in Hk. apply has_own_key_get in Hk'.
  simpl in Hk, Hk'.
  split.
  - intros Hne.
    assert (Hlast : forall ps, lookup "hasOwnProperty" ps = None ->
                      lookup "hasOwnProperty" (ps ++ [(k, v)])%list = None).
    { intros ps Hps. rewrite (lookup_app_missing ps _ _ Hps).
      cbn [lookup].
      destruct (String.eqb_spec "hasOwnProperty" k) as [Heq|_];
        [exfalso; apply Hne; symmetry; exact Heq|reflexivity]. }
    split.
    + rewrite _assertEquals_objects by assumption.
      destruct (_assertEquals_plain_objects l m eps (aps ++ [(k, v)])%list
                  Hl Hplain (Hlast aps Hplain')) as [Hfirst _].
      rewrite (proj1 Hfirst (matched_after_append m m eps aps _ Hm)).
      rewrite map_app. simpl.
      apply each_actual_key_first_extra.
      * exact Hplain.
      * apply (Hlast aps Hplain').
      * pose proof (own_keys_present m (aps ++ [(k, v)])%list) as Hown.
        rewrite map_app in Hown. exact Hown.
      * exact Hkeys.
      * apply has_own_key_get. exact Hk'.
    + rewrite _assertEquals_objects by assumption.
      rewrite (each_expected_key_missing _assertEquals
                 (VObject l (eps ++ [(k, v)])%list) (VObject m aps)
                 (Hlast eps Hplain) Hplain' eps [] k v
                 (own_entries_present l _) Hm Hk).
      reflexivity.
  - intros ->. split.
    + apply _assertEquals_hidden_in_actual; try assumption.
      rewrite (lookup_app_missing aps _ _ Hplain'). discriminate.
    + apply _assertEquals_hidden_in_expected; try assumption.
      rewrite (lookup_app_missing eps _ _ Hplain). discriminate.
Qed.

Lemma one_more_key_is_reported_witness :
  let eps := [("a", VNumber 1); ("b", VNull)] in
  let aps := [("b", VNull); ("a", VNumber 1)] in
  ((1 <> 2)%positive
   /\ _assertEquals (VObject 1 eps) (VObject 2 aps) = Return
   /\ has_own_key (VObject 2 aps) "c" = false
   /\ "c" <> "hasOwnProperty")
  /\ _assertEquals (VObject 1 eps) (VObject 2 (aps ++ [("c", VNull)])%list) =
     Throw "c to be missing but was found"
  /\ _assertEquals (VObject 1 (eps ++ [("c", VNull)])%list) (VObject 2 aps) =
     Throw "c but was not found".
Proof.
  intros eps aps.
  assert (H1 : (1 <> 2)%positive) by discriminate.
  assert (H2 : _assertEquals (VObject 1 eps) (VObject 2 aps) = Return)
    by reflexivity.
  assert (H3 : has_own_key (VObject 2 aps) "c" = false) by reflexivity.
  assert (H4 : "c" <> "hasOwnProperty") by discriminate.
  split; [repeat split; assumption|].
  exact (proj1 (one_more_key_is_reported 1%positive 2%positive eps aps "c"
                  VNull H1 H2 H3) H4).
Defined.

(** ** The names of the types *)

Lemma shape_name_injective (s t : Shape) : shape_name s = shape_name t -> s = t.
Proof. destruct s, t; simpl; intros H; try reflexivity; discriminate H. Qed.

(** X9. [getTypeName] gives two values the same name exactly when they have
    the same shape: the six names null, Array, Object, string, number and
    boolean tell the six shapes apart, so a Type Mismatch never names one
    type twice. *)
Theorem type_names_tell_shapes_apart :
  (forall v w : Value, getTypeName v = getTypeName w <-> classify v = classify w)
  /\ (forall (expected actual : Value) (m : string),
         classify expected <> classify actual ->
         _assertEquals expected actual = Throw m ->
         m = "type " ++ getTypeName expected ++ " but found type "
             ++ getTypeName actual
         /\ getTypeName expected <> getTypeName actual).
Proof.
  assert (G : forall v w : Value,
             getTypeName v = getTypeName w <-> classify v = classify w).
  { intros v w. rewrite !getTypeName_shape. split.
    - apply shape_name_injective.
    - intros ->. reflexivity. }
  split; [exact G|].
  intros expected actual m Hc H.
  rewrite (_assertEquals_shapes_differ _ _ Hc) in H. injection H as <-.
  rewrite !getTypeName_shape. split; [reflexivity|].
  intros Hn. apply Hc, shape_name_injective, Hn.
Qed.

Lemma type_names_tell_shapes_apart_witness :
  (classify VNull <> classify (VObject 1 [])
   /\ _assertEquals VNull (VObject 1 []) =
      Throw "type null but found type Object")
  /\ getTypeName VNull <> getTypeName (VObject 1 []).
Proof.
  assert (H1 : classify VNull <> classify (VObject 1 [])) by discriminate.
  assert (H2 : _assertEquals VNull (VObject 1 []) =
               Throw "type null but found type Object") by reflexivity.
  split; [split; assumption|].
  exact (proj2 (proj2 type_names_tell_shapes_apart VNull (VObject 1 [])
                  "type null but found type Object" H1 H2)).
Defined.

(** ** A run of tests *)

Lemma runTest_adds (message : string) (sink : list string)
      (expected actual : Value) :
  snd (runTest message sink expected actual) =
  (sink ++ failure_of (message, expected, actual))%list.
Proof.
  unfold runTest, failure_of, push.
  destruct (assertEquals message expected actual); simpl.
  - symmetry. apply app_nil_r.
  - reflexivity.
Qed.

(** X10. Calls of [runTest] one after the other on one list leave in it what
    was there, followed by the failure messages of the tests that failed, in
    the order of the calls: a passing test adds nothing, a failing test adds
    its one message, and nothing recorded earlier is changed or lost.  The
    ten calls of [runAll] are such a run. *)
Theorem runTests_appends_the_failures_in_order :
  (forall (tests : list (string * Value * Value)) (sink : list string),
      runTests tests sink = (sink ++ flat_map failure_of tests)%list)
  /\ runAll_failures = flat_map failure_of runAll_tests.
Proof.
  assert (G : forall (tests : list (string * Value * Value))
                     (sink : list string),
             runTests tests sink = (sink ++ flat_map failure_of tests)%list).
  { induction tests as [|[[message expected] actual] tests IH]; intros sink.
    - simpl. symmetry. apply app_nil_r.
    - unfold runTests in *. cbn [fold_left flat_map].
      rewrite IH, runTest_adds, <- app_assoc. reflexivity. }
  split; [exact G|].
  exact (G runAll_tests []).
Qed.
